(** * Dual-number arithmetic ([dual.py])

    A shallow embedding of the [dual] class of [dual.py] and the proofs of
    its specified properties.

    Numbers are the kernel's binary64 floats, so [+], [-], [*], [abs] and the
    comparisons are the operations Python's [float] performs.  These floats
    have one NaN: the sign and the payload of a NaN are not modelled, and an
    equation between two floats says that they are the same number, zeros of
    different sign being different numbers, or that both are NaN.  What Python
    adds on top of IEEE arithmetic (exceptions for division by zero, for
    overflow in [**] and in [math.exp], for the domain of [math.log]) is
    written out in the section on host operations.  The C library's [exp],
    [log] and [pow], the third-party [parse] function and the formatting of a
    float are not part of the repository: they are the fields of [Host], and
    every definition and theorem is parametric in them. *)

From Stdlib Require Import ZArith Floats String Ascii List Bool Lia.
From stdpp Require Import base option gmap.
Import ListNotations.

Set Warnings "-inexact-float".
#[local] Open Scope string_scope.
#[local] Open Scope Z_scope.

(** ** Exceptions and the error monad *)

Inductive exn : Type :=
| DualException (msg : string)   (* the module's own exception class *)
| AttributeError (name : string)
| NameError (name : string)
| UnboundLocalError (name : string)   (* a subclass of [NameError] *)
| KeyError (key : string)
| IndexError
| TypeError
| ValueError
| ZeroDivisionError
| OverflowError
| SystemError.

(** [isinstance(e, NameError)] *)
Definition is_name_error (e : exn) : bool :=
  match e with
  | NameError _ | UnboundLocalError _ => true
  | _ => false
  end.

Inductive result (A : Type) : Type :=
| Ok (a : A)
| Raise (e : exn).
Arguments Ok {A} a.
Arguments Raise {A} e.

#[export] Instance result_ret : MRet result := fun _ a => Ok a.
#[export] Instance result_bind : MBind result := fun _ _ f m =>
  match m with
  | Ok a => f a
  | Raise e => Raise e
  end.
#[export] Instance result_fmap : FMap result := fun _ _ f m =>
  match m with
  | Ok a => Ok (f a)
  | Raise e => Raise e
  end.

(** ** The host platform *)

Class Host : Type := {
  (** [parse(format, s)] of the [parse] package: [None] when [s] does not
      match, otherwise the converted fields in order. *)
  host_parse : string -> string -> option (list float);
  (** The C library's [exp], [log] and [pow] on doubles. *)
  libm_exp : float -> float;
  libm_log : float -> float;
  libm_pow : float -> float -> float;
  (** [format(x, spec)] for a float [x]. *)
  format_float : string -> float -> string
}.

(** The C library's circular and hyperbolic functions. *)
Class HostTrig : Type := {
  libm_sin : float -> float;
  libm_cos : float -> float;
  libm_sinh : float -> float;
  libm_cosh : float -> float
}.

(** ** Host operations on numbers *)

(** [float(n)] for an int [n]: rounded to nearest, ties to even;
    [OverflowError] when the rounded value is not finite. *)
Definition float_of_int (n : Z) : result float :=
  let f := SF2Prim (binary_normalize prec emax n 0 false) in
  if is_infinity f then Raise OverflowError else Ok f.

(** [a / b] on floats. *)
Definition float_div (a b : float) : result float :=
  if (b =? 0)%float then Raise ZeroDivisionError else Ok (a / b)%float.

(** [n * f] for an int [n] and a float [f]: the int is converted first. *)
Definition int_mul_float (n : Z) (f : float) : result float :=
  c ← float_of_int n; Ok (c * f)%float.

(** [math.exp]: a NaN result from a non-NaN argument is a domain error, an
    infinite result from a finite argument is a range error. *)
Definition math_exp `{Host} (x : float) : result float :=
  let r := libm_exp x in
  if is_nan r && negb (is_nan x) then Raise ValueError
  else if is_infinity r && is_finite x then Raise OverflowError
  else Ok r.

(** [math.log] of a float: NaN and [+inf] are passed through, zero and
    negative arguments are a domain error and the C library is only asked
    about positive finite arguments. *)
Definition math_log `{Host} (x : float) : result float :=
  if is_nan x then Ok x
  else if (x <=? 0)%float then Raise ValueError
  else if is_infinity x then Ok x
  else
    let r := libm_log x in
    if is_nan r || is_infinity r then Raise ValueError else Ok r.

(** A one-argument function of the [math] module over the C function [f]: a
    NaN result from a non-NaN argument is a domain error; an infinite result
    from a finite argument is a range error where the function can overflow
    and a domain error where it cannot. *)
Definition math_1 (f : float -> float) (can_overflow : bool) (x : float) : result float :=
  let r := f x in
  if is_nan r && negb (is_nan x) then Raise ValueError
  else if is_infinity r && is_finite x then
    if can_overflow then Raise OverflowError else Raise ValueError
  else Ok r.

Definition math_sin `{HostTrig} : float -> result float := math_1 libm_sin false.
Definition math_cos `{HostTrig} : float -> result float := math_1 libm_cos false.
Definition math_sinh `{HostTrig} : float -> result float := math_1 libm_sinh true.
Definition math_cosh `{HostTrig} : float -> result float := math_1 libm_cosh true.

(** [fmod(fabs(x), 2.0) == 1.0] *)
Definition double_is_odd_integer (f : float) : bool :=
  match Prim2SF f with
  | S754_finite _ m e =>
      match e with
      | Z0 => Z.odd (Zpos m)
      | Zneg k => (Zpos m mod 2 ^ Zpos k =? 0) && Z.odd (Zpos m / 2 ^ Zpos k)
      | Zpos _ => false
      end
  | _ => false
  end.

(** [v ** n] for a float [v] and an int [n].  The exponent is converted to a
    double; the cases the interpreter decides itself come first and the C
    library's [pow] sees only a finite positive base other than one.  An
    infinite result there is an [OverflowError]. *)
Definition float_pow `{Host} (v : float) (n : Z) : result float :=
  iw ← float_of_int n;
  if (iw =? 0)%float then Ok 1%float
  else if is_nan v then Ok v
  else
    let odd := double_is_odd_integer iw in
    if is_infinity v then
      if (0 <? iw)%float then Ok (if odd then v else abs v)
      else Ok (if odd then (if (v <? 0)%float then PrimFloat.neg_zero else 0%float)
               else 0%float)
    else if (v =? 0)%float then
      if (iw <? 0)%float then Raise ZeroDivisionError
      else Ok (if odd then v else 0%float)
    else
      let negate := (v <? 0)%float && odd in
      let iv := if (v <? 0)%float then (- v)%float else v in
      if (iv =? 1)%float then Ok (if negate then (-1)%float else 1%float)
      else
        let ix := libm_pow iv iw in
        if is_infinity ix then Raise OverflowError
        else Ok (if negate then (- ix)%float else ix).

(** ** Python values *)

(** A value as the methods see it; [D] is how an instance of [dual] is
    referred to (by its attributes for the methods that only read, by its
    address for the ones that assign).  [VObject ty] stands for an object of
    any other type that has no attribute [x] or [y] (a list, a tuple, a
    function, ...): all the module does with such an object is to look at its
    type and to fail on [.x].  [VInstance ty d] is an object of another type
    that carries attributes as an instance of [dual] does (an instance of a
    subclass of [dual], a namespace): its type is not [dual], so that the
    constructor and the conversions treat it as any other object, and [==],
    which reads the attributes of its operand as it is, finds them. *)
Inductive pyvalue (D : Type) : Type :=
| VInt (n : Z)
| VFloat (f : float)
| VStr (s : string)
| VBool (b : bool)
| VNone
| VDual (d : D)
| VObject (ty : string)
| VInstance (ty : string) (d : D).
Arguments VInt {D} n.
Arguments VFloat {D} f.
Arguments VStr {D} s.
Arguments VBool {D} b.
Arguments VNone {D}.
Arguments VDual {D} d.
Arguments VObject {D} ty.
Arguments VInstance {D} ty d.

Inductive pytype : Type :=
| Tint | Tfloat | Tstr | Tbool | TNoneType | Tdual | Tother (ty : string).

Definition type_of {D} (v : pyvalue D) : pytype :=
  match v with
  | VInt _ => Tint
  | VFloat _ => Tfloat
  | VStr _ => Tstr
  | VBool _ => Tbool
  | VNone => TNoneType
  | VDual _ => Tdual
  | VObject ty => Tother ty
  | VInstance ty _ => Tother ty
  end.

Definition pytype_eqb (s t : pytype) : bool :=
  match s, t with
  | Tint, Tint | Tfloat, Tfloat | Tstr, Tstr | Tbool, Tbool
  | TNoneType, TNoneType | Tdual, Tdual => true
  | Tother a, Tother b => String.eqb a b
  | _, _ => false
  end.

(** [type(v) in ts] *)
Definition type_in {D} (v : pyvalue D) (ts : list pytype) : bool :=
  existsb (pytype_eqb (type_of v)) ts.

(** ** Module constants *)

Definition indeterminatechar : string := "w".
Definition precision : float := 1e-8%float.
Definition parseformat : string := ("{:g}{:+g}" ++ indeterminatechar)%string.
Definition strformat : string := ("{self.x}{self.y:+}" ++ indeterminatechar)%string.
Definition reprformat : string :=
  ("<dual:{:.4g}{:+.4g}" ++ indeterminatechar ++ ">")%string.

(** ** The class [dual]: methods that only read their operands *)

Module dual.

(** An instance is its attribute dictionary; [None] is an attribute that was
    never assigned. *)
Record t : Type := new { x : option float; y : option float }.

(** An instance with both components set. *)
Definition make (a b : float) : t := new (Some a) (Some b).

Definition value : Type := pyvalue t.

(** [self.x] and [self.y] *)
Definition getattr_x (self : t) : result float :=
  match x self with
  | Some v => Ok v
  | None => Raise (AttributeError "x")
  end.

Definition getattr_y (self : t) : result float :=
  match y self with
  | Some v => Ok v
  | None => Raise (AttributeError "y")
  end.

(** [other.x] and [other.y] for an arbitrary object *)
Definition value_x (other : value) : result float :=
  match other with
  | VDual d | VInstance _ d => getattr_x d
  | _ => Raise (AttributeError "x")
  end.

Definition value_y (other : value) : result float :=
  match other with
  | VDual d | VInstance _ d => getattr_y d
  | _ => Raise (AttributeError "y")
  end.

Definition re (self : t) : result float := getattr_x self.
Definition im (self : t) : result float := getattr_y self.

(** [float(v)] when [type(v) in [int, float]], [None] for any other type. *)
Definition as_number (v : value) : option (result float) :=
  match v with
  | VInt n => Some (float_of_int n)
  | VFloat f => Some (Ok f)
  | _ => None
  end.

(** [r[i]] for the result [r] of [parse]. *)
Definition getitem (r : option (list float)) (i : nat) : result float :=
  match r with
  | None => Raise TypeError
  | Some fields =>
      match nth_error fields i with
      | Some f => Ok f
      | None => Raise IndexError
      end
  end.

Section Methods.
Context `{Host}.

(** [dual(x, y)]: the instance [__init__] leaves behind.  The chain of tests
    has no final [else]: an argument of any other shape leaves the instance
    without attributes. *)
Definition __init__ (x y : value) : result t :=
  match x with
  | VStr s =>
      let r := host_parse parseformat s in
      r0 ← getitem r 0;
      r1 ← getitem r 1;
      Ok (new (Some r0) (Some r1))
  | VDual d =>
      a ← re d;
      b ← im d;
      Ok (new (Some a) (Some b))
  | _ =>
      match as_number x, as_number y with
      | Some fx, Some fy =>
          a ← fx;
          b ← fy;
          Ok (new (Some a) (Some b))
      | _, _ => Ok (new None None)
      end
  end.

(** [dual(x)], the second argument left at its default [0.0]. *)
Definition dual1 (x : value) : result t := __init__ x (VFloat 0%float).

(** [dual(a, b)] on two floats. *)
Definition dual2 (a b : float) : result t := __init__ (VFloat a) (VFloat b).

(** [if not type(other) is dual: other = dual(other)] *)
Definition coerce (other : value) : result t :=
  match other with
  | VDual d => Ok d
  | _ => dual1 other
  end.

Definition __neg__ (self : t) : result t :=
  a ← getattr_x self;
  b ← getattr_y self;
  dual2 (- a)%float (- b)%float.

Definition __pos__ (self : t) : result t :=
  a ← getattr_x self;
  b ← getattr_y self;
  dual2 (abs a) (abs b).

Definition __add__ (self : t) (other : value) : result t :=
  other ← coerce other;
  x1 ← getattr_x self; x2 ← getattr_x other;
  y1 ← getattr_y self; y2 ← getattr_y other;
  dual2 (x1 + x2)%float (y1 + y2)%float.

Definition __sub__ (self : t) (other : value) : result t :=
  other ← coerce other;
  x1 ← getattr_x self; x2 ← getattr_x other;
  y1 ← getattr_y self; y2 ← getattr_y other;
  dual2 (x1 - x2)%float (y1 - y2)%float.

Definition __mul__ (self : t) (other : value) : result t :=
  other ← coerce other;
  x1 ← getattr_x self; x2 ← getattr_x other;
  x1' ← getattr_x self; y2 ← getattr_y other;
  y1 ← getattr_y self; x2' ← getattr_x other;
  dual2 (x1 * x2)%float (x1' * y2 + y1 * x2')%float.

Definition __truediv__ (self : t) (other : value) : result t :=
  other ← coerce other;
  x1 ← getattr_x self; x2 ← getattr_x other;
  q ← float_div x1 x2;
  y1 ← getattr_y self; x2a ← getattr_x other;
  x1' ← getattr_x self; y2 ← getattr_y other;
  x2b ← getattr_x other; x2c ← getattr_x other;
  r ← float_div (y1 * x2a - x1' * y2)%float (x2b * x2c)%float;
  dual2 q r.

Definition __invert__ (self : t) : result t :=
  one ← dual1 (VInt 1);
  __truediv__ one (VDual self).

Definition __pow__ (self : t) (n : value) : result t :=
  match n with
  | VInt n =>
      if 1 <? n then
        a ← getattr_x self;
        p ← float_pow a n;
        a' ← getattr_x self;
        q ← float_pow a' (n - 1);
        k ← int_mul_float n q;
        b ← getattr_y self;
        dual2 p (k * b)%float
      else if n =? 1 then
        a ← getattr_x self;
        b ← getattr_y self;
        dual2 a b
      else if n =? 0 then dual1 (VFloat 1%float)
      else Raise (DualException "n must be non-negative")
  | _ => Raise (DualException "n must be an integer")
  end.

(** [==]: a right operand of type int, float or str is converted, any other
    object is used as it is. *)
Definition __eq__ (self : t) (other : value) : result bool :=
  other ← (if type_in other [Tint; Tfloat; Tstr]
           then VDual <$> dual1 other else Ok other);
  x1 ← getattr_x self; x2 ← value_x other;
  if (abs (x1 - x2) <=? precision)%float then
    y1 ← getattr_y self; y2 ← value_y other;
    Ok (abs (y1 - y2) <=? precision)%float
  else Ok false.

Definition __lt__ (self : t) (other : value) : result bool :=
  other ← coerce other;
  x1 ← getattr_x self; x2 ← getattr_x other;
  Ok (x1 <? x2)%float.

Definition __le__ (self : t) (other : value) : result bool :=
  other ← coerce other;
  x1 ← getattr_x self; x2 ← getattr_x other;
  Ok (x1 <=? x2)%float.

Definition __gt__ (self : t) (other : value) : result bool :=
  other ← coerce other;
  x1 ← getattr_x self; x2 ← getattr_x other;
  Ok (x2 <? x1)%float.

Definition __ge__ (self : t) (other : value) : result bool :=
  other ← coerce other;
  x1 ← getattr_x self; x2 ← getattr_x other;
  Ok (x2 <=? x1)%float.

Definition conj (self : t) : result t :=
  a ← getattr_x self;
  b ← getattr_y self;
  dual2 a (- b)%float.

Definition exp (self : t) : result t :=
  a ← getattr_x self;
  ex ← math_exp a;
  b ← getattr_y self;
  dual2 ex (b * ex)%float.

Definition log (self : t) : result t :=
  a ← getattr_x self;
  l ← math_log a;
  b ← getattr_y self; a' ← getattr_x self;
  q ← float_div b a';
  dual2 l q.

Definition pow (self : t) (n : value) : result t :=
  c ← (dn ← dual1 n; re dn);
  if (0 <? c)%float then
    a ← getattr_x self;
    b ← getattr_y self;
    match n with
    | VInt n =>
        p ← float_pow a n;
        q ← float_pow a (n - 1);
        k ← int_mul_float n q;
        dual2 p (k * b)%float
    | VFloat _ | VDual _ | VStr _ =>
        d ← (dn ← dual1 n; im dn);
        l ← math_log a;
        ex ← math_exp (c * l)%float;
        u ← float_div (c * b)%float a;
        l' ← math_log a;
        dual2 ex (ex * (u + d * l'))%float
    | _ => Raise (DualException "n must be either int, float, dual, or str")
    end
  else if (c =? 0)%float then dual1 (VInt 1)
  else Raise (DualException "n must be non-negative").

(** *** Local variables

    The local variables of a function are its parameters and the names its
    body assigns to; reading one that holds no value yet raises
    [UnboundLocalError]. *)
Fixpoint assoc (name : string) (env : list (string * value)) : option value :=
  match env with
  | [] => None
  | (k, v) :: env' => if String.eqb name k then Some v else assoc name env'
  end.

Definition load_fast (name : string) (frame : list (string * value)) : result value :=
  match assoc name frame with
  | Some v => Ok v
  | None => Raise (UnboundLocalError name)
  end.

(** [!=]: the parameter is called [otherother]; the body assigns to [other],
    which makes it a local variable, and reads it first, when the frame
    holds the two parameters only. *)
Definition __ne__ (self : t) (otherother : value) : result bool :=
  other ← load_fast "other" [("self", VDual self); ("otherother", otherother)];
  other ← (if type_in other [Tint; Tfloat; Tstr]
           then VDual <$> dual1 other else Ok other);
  x1 ← getattr_x self; x2 ← value_x other;
  if (abs (x1 - x2) <=? precision)%float then
    y1 ← getattr_y self; y2 ← value_y other;
    Ok (negb (abs (y1 - y2) <=? precision)%float)
  else Ok true.

(** *** [str.format]

    The part of the format mini-language the module's templates use:
    literal text, doubled braces, and replacement fields
    [{arg_name.attribute:spec}].  An empty [arg_name] takes the next
    positional argument, a number the positional argument of that index,
    and an identifier the keyword argument of that name. *)
Inductive piece : Type :=
| Lit (c : ascii)
| Field (body : string).

Fixpoint markup (s : string) (field : option string) : result (list piece) :=
  match s, field with
  | EmptyString, None => Ok []
  | EmptyString, Some _ => Raise ValueError
  | String c s', Some body =>
      if Ascii.eqb c "}" then ps ← markup s' None; Ok (Field body :: ps)
      else markup s' (Some (body ++ String c EmptyString)%string)
  | String c s', None =>
      if Ascii.eqb c "{" then
        match s' with
        | String "{" s'' => ps ← markup s'' None; Ok (Lit "{" :: ps)
        | _ => markup s' (Some EmptyString)
        end
      else if Ascii.eqb c "}" then
        match s' with
        | String "}" s'' => ps ← markup s'' None; Ok (Lit "}" :: ps)
        | _ => Raise ValueError
        end
      else ps ← markup s' None; Ok (Lit c :: ps)
  end.

(** [s] up to the first [c], and what follows that [c] when there is one. *)
Fixpoint split_at (c : ascii) (s : string) : string * option string :=
  match s with
  | EmptyString => (EmptyString, None)
  | String d s' =>
      if Ascii.eqb c d then (EmptyString, Some s')
      else let (a, r) := split_at c s' in (String d a, r)
  end.

Definition is_digit (c : ascii) : bool :=
  (48 <=? Z.of_nat (nat_of_ascii c)) && (Z.of_nat (nat_of_ascii c) <=? 57).

Definition index_of (s : string) : nat :=
  fold_left (fun n c => (10 * n + (nat_of_ascii c - 48))%nat)
            (list_ascii_of_string s) 0%nat.

(** [obj.name] *)
Definition getattr (obj : value) (name : string) : result value :=
  match obj with
  | VDual d | VInstance _ d =>
      if String.eqb name "x" then VFloat <$> getattr_x d
      else if String.eqb name "y" then VFloat <$> getattr_y d
      else Raise (AttributeError name)
  | _ => Raise (AttributeError name)
  end.

Fixpoint getattrs (obj : value) (path : option string) (fuel : nat) : result value :=
  match path, fuel with
  | None, _ => Ok obj
  | Some _, O => Ok obj
  | Some p, S fuel' =>
      let (name, rest) := split_at "." p in
      o ← getattr obj name;
      getattrs o rest fuel'
  end.

(** The object a field name denotes, and the automatic index after it. *)
Definition get_field (name : string) (auto : nat)
    (args : list value) (kwargs : list (string * value)) : result (value * nat) :=
  let (arg, path) := split_at "." name in
  ob ← (if String.eqb arg EmptyString then
          match nth_error args auto with
          | Some v => Ok (v, S auto)
          | None => Raise IndexError
          end
        else if forallb is_digit (list_ascii_of_string arg) then
          match nth_error args (index_of arg) with
          | Some v => Ok (v, auto)
          | None => Raise IndexError
          end
        else
          match assoc arg kwargs with
          | Some v => Ok (v, auto)
          | None => Raise (KeyError arg)
          end);
  o ← getattrs (fst ob) path (String.length name);
  Ok (o, snd ob).

(** [format(obj, spec)]; the module formats floats only. *)
Definition format_value (obj : value) (spec : string) : result string :=
  match obj with
  | VFloat f => Ok (format_float spec f)
  | _ => Raise TypeError
  end.

Fixpoint vformat (ps : list piece) (auto : nat)
    (args : list value) (kwargs : list (string * value)) : result string :=
  match ps with
  | [] => Ok EmptyString
  | Lit c :: ps' =>
      rest ← vformat ps' auto args kwargs;
      Ok (String c rest)
  | Field body :: ps' =>
      let (name, spec) := split_at ":" body in
      ob ← get_field name auto args kwargs;
      txt ← format_value (fst ob) (default EmptyString spec);
      rest ← vformat ps' (snd ob) args kwargs;
      Ok (txt ++ rest)%string
  end.

(** [template.format( *args, **kwargs)] *)
Definition str_format (template : string)
    (args : list value) (kwargs : list (string * value)) : result string :=
  ps ← markup template None;
  vformat ps 0%nat args kwargs.

(** [s.replace(" ", "")] *)
Fixpoint remove_spaces (s : string) : string :=
  match s with
  | EmptyString => EmptyString
  | String c s' =>
      if Ascii.eqb c " " then remove_spaces s' else String c (remove_spaces s')
  end.

Definition __str__ (self : t) : result string :=
  a ← getattr_x self;
  b ← getattr_y self;
  s ← str_format strformat [VFloat a; VFloat b] [];
  Ok (remove_spaces s).

Definition __repr__ (self : t) : result string :=
  a ← getattr_x self;
  b ← getattr_y self;
  s ← str_format reprformat [VFloat a; VFloat b] [];
  Ok (remove_spaces s).

(** [abs()]: the real part (the name [abs] is the float operation here). *)
Definition abs_ (self : t) : result float := getattr_x self.

(** [arg()] *)
Definition arg (self : t) : result float :=
  b ← getattr_y self;
  a ← getattr_x self;
  float_div b a.

(** [D()] *)
Definition D (self : t) : result float := getattr_y self.

(** The module constant [w = dual(0, 1)]. *)
Definition w : result t := __init__ (VInt 0) (VInt 1).

End Methods.

(** *** Circular and hyperbolic functions *)

Section Functions.
Context `{Host} `{HostTrig}.

Definition sin (self : t) : result t :=
  a ← getattr_x self;
  s ← math_sin a;
  b ← getattr_y self; a' ← getattr_x self;
  c ← math_cos a';
  dual2 s (b * c)%float.

Definition cos (self : t) : result t :=
  a ← getattr_x self;
  c ← math_cos a;
  b ← getattr_y self; a' ← getattr_x self;
  s ← math_sin a';
  dual2 c (- b * s)%float.

Definition tan (self : t) : result t :=
  s ← sin self;
  c ← cos self;
  __truediv__ s (VDual c).

Definition sinh (self : t) : result t :=
  a ← getattr_x self;
  s ← math_sinh a;
  b ← getattr_y self; a' ← getattr_x self;
  c ← math_cosh a';
  dual2 s (b * c)%float.

Definition cosh (self : t) : result t :=
  a ← getattr_x self;
  c ← math_cosh a;
  b ← getattr_y self; a' ← getattr_x self;
  s ← math_sinh a';
  dual2 c (b * s)%float.

Definition tanh (self : t) : result t :=
  s ← sinh self;
  c ← cosh self;
  __truediv__ s (VDual c).

End Functions.

(** ** The class [dual]: methods that assign to [self]

    The compound assignments update the attributes of the object [self]
    refers to and return that reference.  Objects live in a heap; an operand
    that is a [dual] is the address of an object in it, so that [self] and
    [other] may be the same object.  A method runs on a heap and yields a
    result or an exception together with the heap it leaves behind. *)

Definition loc : Type := positive.
Definition ref : Type := pyvalue loc.
Definition M (A : Type) : Type := gmap loc t -> result A * gmap loc t.

#[export] Instance M_ret : MRet M := fun _ a h => (Ok a, h).
#[export] Instance M_bind : MBind M := fun _ _ f m h =>
  match m h with
  | (Ok a, h') => f a h'
  | (Raise e, h') => (Raise e, h')
  end.

Definition lift {A} (r : result A) : M A := fun h => (r, h).

Definition load (l : loc) : M t := fun h =>
  match h !! l with
  | Some o => (Ok o, h)
  | None => (Raise SystemError, h)
  end.

Definition store (l : loc) (o : t) : M unit := fun h => (Ok tt, <[l := o]> h).

(** A new object, at an address not in use. *)
Definition alloc (o : t) : M loc := fun h =>
  let l := fresh (dom h) in (Ok l, <[l := o]> h).

Definition get_x (l : loc) : M float := o ← load l; lift (getattr_x o).
Definition get_y (l : loc) : M float := o ← load l; lift (getattr_y o).
Definition set_x (l : loc) (v : float) : M unit :=
  o ← load l; store l (new (Some v) (y o)).
Definition set_y (l : loc) (v : float) : M unit :=
  o ← load l; store l (new (x o) (Some v)).

(** The operand as the reading methods see it in heap [h]. *)
Definition snapshot (h : gmap loc t) (v : ref) : option value :=
  match v with
  | VDual l => VDual <$> h !! l
  | VInt n => Some (VInt n)
  | VFloat f => Some (VFloat f)
  | VStr s => Some (VStr s)
  | VBool b => Some (VBool b)
  | VNone => Some VNone
  | VObject ty => Some (VObject ty)
  | VInstance ty l => VInstance ty <$> h !! l
  end.

Section Assignments.
Context `{Host}.

(** [if not type(other) is dual: other = dual(other)]: the operand itself
    when it is a [dual], a new object otherwise. *)
Definition coerce_ref (other : ref) : M loc :=
  match other with
  | VDual l => mret l
  | _ => fun h =>
      match snapshot h other with
      | Some v => (o ← lift (dual1 v); alloc o) h
      | None => (Raise SystemError, h)
      end
  end.

Definition __iadd__ (self : loc) (other : ref) : M loc :=
  other ← coerce_ref other;
  x1 ← get_x self; x2 ← get_x other; _ ← set_x self (x1 + x2)%float;
  y1 ← get_y self; y2 ← get_y other; _ ← set_y self (y1 + y2)%float;
  mret self.

Definition __isub__ (self : loc) (other : ref) : M loc :=
  other ← coerce_ref other;
  x1 ← get_x self; x2 ← get_x other; _ ← set_x self (x1 - x2)%float;
  y1 ← get_y self; y2 ← get_y other; _ ← set_y self (y1 - y2)%float;
  mret self.

Definition __imul__ (self : loc) (other : ref) : M loc :=
  other ← coerce_ref other;
  y1 ← get_y self; x2 ← get_x other; _ ← set_y self (y1 * x2)%float;
  y1 ← get_y self; x1 ← get_x self; y2 ← get_y other;
  _ ← set_y self (y1 + x1 * y2)%float;
  x1 ← get_x self; x2 ← get_x other; _ ← set_x self (x1 * x2)%float;
  mret self.

Definition __itruediv__ (self : loc) (other : ref) : M loc :=
  other ← coerce_ref other;
  y1 ← get_y self; x2 ← get_x other; _ ← set_y self (y1 * x2)%float;
  y1 ← get_y self; x1 ← get_x self; y2 ← get_y other;
  _ ← set_y self (y1 - x1 * y2)%float;
  y1 ← get_y self; x2 ← get_x other; x2' ← get_x other;
  q ← lift (float_div y1 (x2 * x2')%float); _ ← set_y self q;
  x1 ← get_x self; x2 ← get_x other;
  q ← lift (float_div x1 x2); _ ← set_x self q;
  mret self.

Definition __ipow__ (self : loc) (other : ref) : M loc :=
  other ← coerce_ref other;
  s ← load self; o ← load other;
  p ← lift (pow s (VDual o));
  p ← alloc p;
  p ← load p;
  z ← lift (dual1 (VDual p));
  z ← alloc z;
  zx ← get_x z; _ ← set_x self zx;
  zy ← get_y z; _ ← set_y self zy;
  mret self.

End Assignments.
End dual.

(** ** The rules as the specification words them *)

(** [a == b] for two computations of a [dual]. *)
Definition equal `{Host} (p q : result dual.t) : result bool :=
  a ← p; b ← q; dual.__eq__ a (VDual b).

(** The integer rule: [(x1^n, n * x1^(n-1) * y1)]. *)
Definition pow_integer_rule `{Host} (x1 y1 : float) (n : Z) : result dual.t :=
  p ← float_pow x1 n;
  q ← float_pow x1 (n - 1);
  k ← int_mul_float n q;
  Ok (dual.make p (k * y1)%float).

(** The general rule: [(e, e * (c * y1 / x1 + d * ln x1))] with
    [e = exp (c * ln x1)]. *)
Definition pow_general_rule `{Host} (x1 y1 c d : float) : result dual.t :=
  l ← math_log x1;
  e ← math_exp (c * l)%float;
  u ← float_div (c * y1)%float x1;
  Ok (dual.make e (e * (u + d * l))%float).

(** [v] is [r] or one of its two neighbours among the doubles. *)
Definition within_one_ulp (v r : float) : Prop :=
  v = next_down r \/ v = r \/ v = next_up r.

(** The double nearest to the natural logarithm of 3. *)
Definition ln3 : float := 1.0986122886681098%float.

(** ** A host for closed examples

    The C library tabulated at the arguments the module's own tests reach,
    with the values glibc returns there, and NaN elsewhere ([pow] with the
    exponents one and two, where it is the base and its correctly rounded
    square); [parse] knowing one string. *)
Definition example_host : Host := {|
  host_parse := fun fmt s =>
    if String.eqb fmt parseformat && String.eqb s "1+2w"
    then Some [1%float; 2%float] else None;
  libm_exp := fun x =>
    if (x =? 0)%float then 1%float
    else if (x =? ln3)%float then 3.0000000000000004%float
    else nan;
  libm_log := fun x =>
    if (x =? 1)%float then 0%float
    else if (x =? 3)%float then ln3
    else nan;
  libm_pow := fun x y =>
    if (y =? 1)%float then x
    else if (y =? 2)%float then (x * x)%float
    else nan;
  format_float := fun _ _ => EmptyString
|}.

(** ** The inverse laws *)

(** [(a / b) * b == a] *)
Definition div_mul_roundtrip `{Host} (a b : dual.t) : result bool :=
  equal (q ← dual.__truediv__ a (VDual b); dual.__mul__ q (VDual b)) (Ok a).

(** [a - b == -(b - a)] *)
Definition sub_neg_swap `{Host} (a b : dual.t) : result bool :=
  equal (dual.__sub__ a (VDual b)) (d ← dual.__sub__ b (VDual a); dual.__neg__ d).

(** The integers from [-8] to [8] as doubles. *)
Definition small_integers : list float :=
  [-8; -7; -6; -5; -4; -3; -2; -1; 0; 1; 2; 3; 4; 5; 6; 7; 8]%float.

Definition holds (r : result bool) : bool :=
  match r with
  | Ok true => true
  | _ => false
  end.

Definition grid_roundtrip `{Host} : bool :=
  forallb (fun x1 => forallb (fun y1 => forallb (fun x2 => forallb (fun y2 =>
    (x2 =? 0)%float || holds (div_mul_roundtrip (dual.make x1 y1) (dual.make x2 y2)))
    small_integers) small_integers) small_integers) small_integers.

(** ** Heaps for closed examples *)

Definition heap_neg : gmap dual.loc dual.t := {[ 1%positive := dual.make (-1) 1 ]}.
Definition heap_two : gmap dual.loc dual.t :=
  <[ 2%positive := dual.make 3 4 ]> {[ 1%positive := dual.make 1 2 ]}.
Definition heap_one : gmap dual.loc dual.t := {[ 1%positive := dual.make 2 3 ]}.

(** A C library for closed examples of the circular functions: exact at
    zero, NaN elsewhere. *)
Definition example_trig : HostTrig := {|
  libm_sin := fun x => if (x =? 0)%float then x else nan;
  libm_cos := fun x => if (x =? 0)%float then 1%float else nan;
  libm_sinh := fun x => if (x =? 0)%float then x else nan;
  libm_cosh := fun x => if (x =? 0)%float then 1%float else nan
|}.

(** No character of [s] is a space. *)
Definition no_space (s : string) : Prop :=
  ~ In " "%char (list_ascii_of_string s).

(** Every object of [h] other than the one at [self] is in [h'] as it was. *)
Definition others_kept (self : dual.loc) (h h' : gmap dual.loc dual.t) : Prop :=
  forall (l : dual.loc) (o : dual.t), l <> self -> h !! l = Some o -> h' !! l = Some o.

(** A computation that, on every heap, keeps the objects other than [self]. *)
Definition keeps {A : Type} (self : dual.loc) (m : dual.M A) : Prop :=
  forall h : gmap dual.loc dual.t, others_kept self h (m h).2.

(** A heap whose second object has a zero real component. *)
Definition heap_zero : gmap dual.loc dual.t :=
  <[ 2%positive := dual.make 0 1 ]> {[ 1%positive := dual.make 1 2 ]}.

(** The binary operators that return a [dual], the orderings, and the
    comparisons, which are the orderings and [==]. *)
Definition binary_ops `{Host} : list (dual.t -> dual.value -> result dual.t) :=
  [dual.__add__; dual.__sub__; dual.__mul__; dual.__truediv__].


Definition comparisons `{Host} : list (dual.t -> dual.value -> result bool) :=
  [dual.__lt__; dual.__le__; dual.__gt__; dual.__ge__; dual.__eq__].

(** What the C standard's annex on IEC 60559 arithmetic asks of the circular
    and hyperbolic functions at a zero of either sign. *)
Definition exact_at_zero (T : HostTrig) : Prop :=
  forall z : float, (z =? 0)%float = true ->
    libm_sin z = z /\ libm_cos z = 1%float /\
    libm_sinh z = z /\ libm_cosh z = 1%float.

(** Sine and hyperbolic sine odd, cosine and hyperbolic cosine even. *)
Definition symmetric (T : HostTrig) : Prop :=
  forall a : float,
    libm_sin (- a) = (- libm_sin a)%float /\ libm_cos (- a) = libm_cos a /\
    libm_sinh (- a) = (- libm_sinh a)%float /\ libm_cosh (- a) = libm_cosh a.

(** ** Definitions used in the proofs about rounding *)



(** The second half of [binary_round_aux]: the shift after rounding. *)
Definition round_tail (sx : bool) (m e : Z) : spec_float :=
  let '(mrs, e') := shr_fexp prec emax m e loc_Exact in
  match shr_m mrs with
  | Z0 => S754_zero sx
  | Zpos m' => if e' <=? emax - prec then S754_finite sx m' e' else S754_infinity sx
  | Zneg _ => S754_nan
  end.

Definition SFis_zero (a : spec_float) : bool :=
  match a with
  | S754_zero _ => true
  | _ => false
  end.

Definition SFis_finite (a : spec_float) : Prop :=
  match a with
  | S754_zero _ | S754_finite _ _ _ => True
  | _ => False
  end.

(** Two results of an operation that [==] cannot tell apart: the same finite
    number, or two zeros. *)
Definition SFsame (a b : spec_float) : Prop :=
  (a = b /\ SFis_finite a) \/ (SFis_zero a = true /\ SFis_zero b = true).

(** * Proofs *)

(** ** Integers as doubles *)

Lemma digits2_pos_spec (p : positive) :
  2 ^ (Zpos (digits2_pos p) - 1) <= Zpos p < 2 ^ Zpos (digits2_pos p).
Proof.
  induction p as [p IH | p IH |]; cbn [digits2_pos].
  - rewrite Pos2Z.inj_succ, Z.pow_succ_r by lia.
    replace (Z.succ (Zpos (digits2_pos p)) - 1) with (Z.succ (Zpos (digits2_pos p) - 1)) by lia.
    rewrite Z.pow_succ_r by lia. lia.
  - rewrite Pos2Z.inj_succ, Z.pow_succ_r by lia.
    replace (Z.succ (Zpos (digits2_pos p)) - 1) with (Z.succ (Zpos (digits2_pos p) - 1)) by lia.
    rewrite Z.pow_succ_r by lia. lia.
  - cbn. lia.
Qed.

Lemma digits2_pos_unique (p : positive) (n : Z) :
  2 ^ (n - 1) <= Zpos p < 2 ^ n -> Zpos (digits2_pos p) = n.
Proof.
  intros [Hlo Hhi]. pose proof (digits2_pos_spec p) as [Glo Ghi].
  assert (0 < n) as Hn.
  { destruct (Z.ltb_spec 0 n) as [|Hle]; [done|].
    exfalso. assert (2 ^ n <= 2 ^ 0) by (apply Z.pow_le_mono_r; lia).
    change (2 ^ 0) with 1 in *. lia. }
  destruct (Z.lt_trichotomy (Zpos (digits2_pos p)) n) as [Hlt | [Heq | Hgt]]; [|done|].
  - exfalso. assert (2 ^ Zpos (digits2_pos p) <= 2 ^ (n - 1)) by (apply Z.pow_le_mono_r; lia). lia.
  - exfalso. assert (2 ^ n <= 2 ^ (Zpos (digits2_pos p) - 1)) by (apply Z.pow_le_mono_r; lia). lia.
Qed.


Lemma shr_1_m (mrs : shr_record) :
  0 <= shr_m mrs -> shr_m (shr_1 mrs) = shr_m mrs / 2.
Proof.
  destruct mrs as [m r s]. cbn [shr_m shr_1]. intros Hm.
  rewrite <- Z.div2_div.
  destruct m as [|[q|q|]|q]; try reflexivity; lia.
Qed.

Lemma shr_iter_m (k : positive) (mrs : shr_record) :
  0 <= shr_m mrs -> shr_m (SpecFloat.iter_pos shr_1 k mrs) = shr_m mrs / 2 ^ Zpos k.
Proof.
  revert mrs. induction k as [k IH | k IH |]; intros mrs Hm; cbn [SpecFloat.iter_pos].
  - assert (0 <= shr_m (shr_1 mrs)) as H1 by (rewrite shr_1_m by done; apply Z.div_pos; lia).
    assert (0 <= shr_m (SpecFloat.iter_pos shr_1 k (shr_1 mrs))) as H2
      by (rewrite IH by done; apply Z.div_pos; lia).
    rewrite IH, IH, shr_1_m by done.
    rewrite !Z.div_div by lia. f_equal.
    rewrite (Pos2Z.inj_xI k), Z.pow_add_r, Z.pow_mul_r by lia.
    change (2 ^ 2) with 4. change (2 ^ 1) with 2.
    replace (4 ^ Zpos k) with (2 ^ Zpos k * 2 ^ Zpos k).
    + lia.
    + rewrite <- Z.pow_mul_l. reflexivity.
  - assert (0 <= shr_m (SpecFloat.iter_pos shr_1 k mrs)) as H2
      by (rewrite IH by done; apply Z.div_pos; lia).
    rewrite IH, IH by done.
    rewrite !Z.div_div by lia. f_equal.
    rewrite (Pos2Z.inj_xO k), Z.pow_mul_r by lia.
    change (2 ^ 2) with 4.
    rewrite <- Z.pow_mul_l. reflexivity.
  - rewrite shr_1_m by done. reflexivity.
Qed.

Lemma iter_xO_mul (p k : positive) :
  Zpos (Pos.iter xO p k) = Zpos p * 2 ^ Zpos k.
Proof.
  induction k as [|k IH] using Pos.peano_ind.
  - cbn. lia.
  - rewrite Pos.iter_succ, (Pos2Z.inj_xO (Pos.iter xO p k)), IH, Pos2Z.inj_succ, Z.pow_succ_r by lia. lia.
Qed.

Lemma binary_round_aux_tail (sx : bool) (mx ex : Z) (lx : location) :
  binary_round_aux prec emax sx mx ex lx =
  round_tail sx (round_nearest_even (shr_m (fst (shr_fexp prec emax mx ex lx)))
                                    (loc_of_shr_record (fst (shr_fexp prec emax mx ex lx))))
             (snd (shr_fexp prec emax mx ex lx)).
Proof.
  unfold binary_round_aux, round_tail.
  destruct (shr_fexp prec emax mx ex lx) as [mrs' e']. reflexivity.
Qed.

Lemma fexp_53 (e : Z) : -1074 <= e -> fexp prec emax (53 + e) = e.
Proof. unfold fexp, SpecFloat.emin, prec, emax. lia. Qed.

Lemma round_tail_53 (sx : bool) (q : positive) (e : Z) :
  Zpos (digits2_pos q) = 53 -> -1074 <= e ->
  round_tail sx (Zpos q) e =
  if e <=? 971 then S754_finite sx q e else S754_infinity sx.
Proof.
  intros Hd He. unfold round_tail, shr_fexp. cbn [Zdigits2].
  rewrite Hd, fexp_53, Z.sub_diag by done. reflexivity.
Qed.

Lemma round_tail_carry (sx : bool) (e : Z) :
  -1074 <= e ->
  round_tail sx (2 ^ 53) e =
  if e + 1 <=? 971 then S754_finite sx (2 ^ 52)%positive (e + 1) else S754_infinity sx.
Proof.
  intros He. unfold round_tail, shr_fexp.
  replace (fexp prec emax (Zdigits2 (2 ^ 53) + e) - e) with 1
    by (change (Zdigits2 (2 ^ 53)) with 54; unfold fexp, SpecFloat.emin, prec, emax; lia).
  reflexivity.
Qed.

Lemma valid_53 (sx : bool) (q : positive) (e : Z) :
  Zpos (digits2_pos q) = 53 -> -1074 <= e <= 971 ->
  valid_binary (S754_finite sx q e) = true.
Proof.
  intros Hd He. unfold SpecFloat.valid_binary, bounded, canonical_mantissa.
  rewrite Hd, fexp_53 by lia. rewrite Z.eqb_refl. cbn [andb].
  unfold prec, emax. lia.
Qed.

Lemma round_nearest_even_cases (m : Z) (l : location) :
  round_nearest_even m l = m \/ round_nearest_even m l = m + 1.
Proof.
  destruct l as [|[| |]]; cbn; auto. destruct (Z.even m); auto.
Qed.

(** Converting a non-zero integer gives an infinity or a valid finite
    number, of the integer's sign. *)
Lemma binary_round_int (sx : bool) (p : positive) :
  binary_round prec emax sx p 0 = S754_infinity sx \/
  exists m e, binary_round prec emax sx p 0 = S754_finite sx m e /\
              valid_binary (S754_finite sx m e) = true.
Proof.
  pose proof (digits2_pos_spec p) as Hp.
  set (d := Zpos (digits2_pos p)) in *.
  assert (1 <= d) as Hd1 by (subst d; lia).
  destruct (Z.le_gt_cases d 53) as [Hle | Hgt].
  - (* at most 53 bits: the conversion is exact *)
    right.
    assert (exists mz, shl_align p 0 (d - 53) = (mz, d - 53) /\ Zpos (digits2_pos mz) = 53)
      as (mz & Hal & Hmz).
    { unfold shl_align. destruct (d - 53 - 0) as [|k|k] eqn:Hk; [|lia|].
      - exists p. split; [f_equal; lia | fold d; lia].
      - exists (Pos.iter xO p k). split; [done|].
        apply digits2_pos_unique. rewrite iter_xO_mul.
        assert (Zpos k = 53 - d) as -> by lia.
        replace (2 ^ (53 - 1)) with (2 ^ (d - 1) * 2 ^ (53 - d))
          by (rewrite <- Z.pow_add_r by lia; f_equal; lia).
        replace (2 ^ 53) with (2 ^ d * 2 ^ (53 - d))
          by (rewrite <- Z.pow_add_r by lia; f_equal; lia).
        assert (0 < 2 ^ (53 - d)) by (apply Z.pow_pos_nonneg; lia).
        nia. }
    exists mz, (d - 53). split; [| apply valid_53; [done | lia]].
    unfold binary_round. fold d.
    replace (fexp prec emax (d + 0)) with (d - 53)
      by (unfold fexp, SpecFloat.emin, prec, emax; lia).
    rewrite Hal, binary_round_aux_tail. unfold shr_fexp. cbn [Zdigits2].
    rewrite Hmz, fexp_53, Z.sub_diag by lia.
    cbn [shr fst snd shr_m shr_record_of_loc loc_of_shr_record round_nearest_even].
    rewrite round_tail_53 by (done || lia).
    replace (d - 53 <=? 971) with true by lia. reflexivity.
  - (* more than 53 bits: the low bits are rounded away *)
    assert (exists k, fexp prec emax (d + 0) = Zpos k /\ Zpos k = d - 53) as (k & Hk & Hkd).
    { destruct (d - 53) as [|k|k] eqn:E; try lia. exists k. split; [|done].
      unfold fexp, SpecFloat.emin, prec, emax. lia. }
    set (mrs := SpecFloat.iter_pos shr_1 k (shr_record_of_loc (Zpos p) loc_Exact)).
    assert (binary_round prec emax sx p 0 =
            round_tail sx (round_nearest_even (shr_m mrs) (loc_of_shr_record mrs)) (Zpos k))
      as ->.
    { unfold binary_round. fold d. rewrite Hk.
      assert (shl_align p 0 (Zpos k) = (p, 0)) as -> by reflexivity.
      rewrite binary_round_aux_tail. unfold shr_fexp. cbn [Zdigits2]. fold d.
      rewrite Hk. reflexivity. }
    assert (shr_m mrs = Zpos p / 2 ^ Zpos k) as Hm.
    { subst mrs. rewrite shr_iter_m; [done | cbn; lia]. }
    assert (2 ^ 52 <= shr_m mrs < 2 ^ 53) as Hrange.
    { rewrite Hm, Hkd. destruct Hp as [Hlo Hhi].
      assert (0 < 2 ^ (d - 53)) by (apply Z.pow_pos_nonneg; lia).
      split.
      - apply Z.div_le_lower_bound; [done|].
        rewrite <- Z.pow_add_r by lia. replace (d - 53 + 52) with (d - 1) by lia. done.
      - apply Z.div_lt_upper_bound; [done|].
        rewrite <- Z.pow_add_r by lia. replace (d - 53 + 53) with d by lia. done. }
    assert (-1074 <= Zpos k) by lia.
    assert (forall q : positive, 2 ^ 52 <= Zpos q < 2 ^ 53 ->
              round_tail sx (Zpos q) (Zpos k) = S754_infinity sx \/
              exists m e, round_tail sx (Zpos q) (Zpos k) = S754_finite sx m e /\
                          valid_binary (S754_finite sx m e) = true) as Hfit.
    { intros q Hq.
      assert (Zpos (digits2_pos q) = 53) as Hdq by (apply digits2_pos_unique; lia).
      rewrite round_tail_53 by done.
      destruct (Zpos k <=? 971) eqn:Hle; [right | left; done].
      exists q, (Zpos k). split; [done|]. apply valid_53; [done | lia]. }
    destruct (round_nearest_even_cases (shr_m mrs) (loc_of_shr_record mrs)) as [-> | ->].
    + destruct (shr_m mrs) as [|q|q] eqn:Hq; try lia. apply Hfit. lia.
    + destruct (Z.eq_dec (shr_m mrs + 1) (2 ^ 53)) as [-> | Hne].
      * rewrite round_tail_carry by done.
        destruct (Zpos k + 1 <=? 971) eqn:Hle; [right | left; done].
        exists (2 ^ 52)%positive, (Zpos k + 1). split; [done|].
        apply valid_53; [reflexivity | lia].
      * destruct (shr_m mrs + 1) as [|q|q] eqn:Hq; try lia. apply Hfit. lia.
Qed.

Lemma Prim2SF_zero : Prim2SF 0%float = S754_zero false.
Proof. reflexivity. Qed.

Lemma Prim2SF_infinity : Prim2SF infinity = S754_infinity false.
Proof. reflexivity. Qed.

Lemma float_of_int_sign (n : Z) :
  match float_of_int n with
  | Ok c => (0 < n -> (0 <? c)%float = true) /\ (n < 0 -> (c <? 0)%float = true)
  | Raise e => e = OverflowError
  end.
Proof.
  unfold float_of_int.
  destruct (is_infinity _) eqn:Hinf; [done|].
  destruct n as [|p|p]; (split; [intros Hn | intros Hn]); try lia.
  - cbn [binary_normalize] in *.
    destruct (binary_round_int false p) as [E | (m & e & E & Hv)]; rewrite E in *.
    + discriminate Hinf.
    + rewrite ltb_spec, Prim2SF_SF2Prim, Prim2SF_zero by done. reflexivity.
  - cbn [binary_normalize] in *.
    destruct (binary_round_int true p) as [E | (m & e & E & Hv)]; rewrite E in *.
    + discriminate Hinf.
    + rewrite ltb_spec, Prim2SF_SF2Prim, Prim2SF_zero by done. reflexivity.
Qed.

(** *** Facts of binary64 arithmetic *)

Lemma SFadd_comm (a b : spec_float) : SFadd prec emax a b = SFadd prec emax b a.
Proof.
  destruct a as [sa|sa| |sa ma ea], b as [sb|sb| |sb mb eb]; try reflexivity;
    try (destruct sa, sb; reflexivity).
  cbn [SFadd]. rewrite (Z.min_comm ea eb). f_equal. apply Z.add_comm.
Qed.

Lemma float_add_comm (a b : float) : (a + b)%float = (b + a)%float.
Proof. apply Prim2SF_inj. rewrite !add_spec. apply SFadd_comm. Qed.

Lemma SFopp_binary_round (sx : bool) (m : positive) (e : Z) :
  SFopp (binary_round prec emax sx m e) = binary_round prec emax (negb sx) m e.
Proof.
  unfold binary_round. destruct (shl_align _ _ _) as [mz ez].
  unfold binary_round_aux.
  destruct (shr_fexp _ _ _ _ _) as [mrs' e'].
  destruct (shr_fexp _ _ _ _ _) as [mrs'' e''].
  destruct (shr_m mrs''); [reflexivity | | reflexivity].
  destruct (_ <=? _); reflexivity.
Qed.

(** [b - a] is the opposite of [a - b], up to the sign of a zero result. *)
Lemma SFsub_swap (a b : spec_float) :
  SFsub prec emax b a = SFopp (SFsub prec emax a b) \/
  (SFis_zero (SFsub prec emax a b) = true /\ SFis_zero (SFsub prec emax b a) = true).
Proof.
  destruct a as [sa|sa| |sa ma ea], b as [sb|sb| |sb mb eb];
    try (left; reflexivity);
    try (destruct sa, sb; (left; reflexivity) || (right; split; reflexivity)).
  cbn [SFsub]. rewrite (Z.min_comm eb ea).
  set (ez := Z.min ea eb).
  set (u := cond_Zopp sa (Zpos (shl_align ma ea ez).1)).
  set (v := cond_Zopp sb (Zpos (shl_align mb eb ez).1)).
  replace (v - u) with (- (u - v)) by lia.
  destruct (u - v) as [|q|q]; cbn [Z.opp binary_normalize].
  - right. split; reflexivity.
  - left. now rewrite SFopp_binary_round.
  - left. now rewrite SFopp_binary_round.
Qed.

Lemma SFsub_diag_finite (a : spec_float) :
  SFis_finite a -> SFsub prec emax a a = S754_zero false.
Proof.
  destruct a as [s|s| |s m e]; try done; intros _.
  - destruct s; reflexivity.
  - cbn [SFsub]. rewrite Z.sub_diag. reflexivity.
Qed.

Lemma is_finite_SF (a : float) :
  is_finite a = true -> SFis_finite (Prim2SF a).
Proof.
  unfold SFis_finite, is_finite, is_nan, is_infinity.
  rewrite !FloatAxioms.eqb_spec, abs_spec, Prim2SF_infinity.
  destruct (Prim2SF a) as [s|s| |s m e]; cbn; try done.
  destruct s; done.
Qed.

Lemma SFopp_involutive (a : spec_float) : SFopp (SFopp a) = a.
Proof. destruct a as [s|s| |s m e]; cbn; now rewrite ?negb_involutive. Qed.

Lemma zero_within_precision (s : bool) :
  SFleb (SFabs (S754_zero s)) (Prim2SF precision) = true.
Proof. reflexivity. Qed.

(** A finite difference is within tolerance of the negated reverse
    difference. *)
Lemma sub_swap_within (a b : float) :
  is_finite (a - b) = true ->
  (abs ((a - b) - (- (b - a))) <=? precision)%float = true.
Proof.
  intros Hf. apply is_finite_SF in Hf.
  rewrite leb_spec, abs_spec, sub_spec, opp_spec, (sub_spec b a).
  rewrite sub_spec in Hf |- *.
  destruct (SFsub_swap (Prim2SF a) (Prim2SF b)) as [E | [Za Zb]].
  - unfold SF64sub in *. rewrite E, SFopp_involutive, SFsub_diag_finite by done.
    apply zero_within_precision.
  - unfold SF64sub in *.
    destruct (SFsub prec emax (Prim2SF a) (Prim2SF b)) as [s| | |]; try discriminate Za.
    destruct (SFsub prec emax (Prim2SF b) (Prim2SF a)) as [s'| | |]; try discriminate Zb.
    destruct s, s'; reflexivity.
Qed.

(** ** Properties of the reading methods *)

Section Properties.
Context `{Host}.
Import dual.

(** ** Ordering *)

(** C7: each of [<], [<=], [>], [>=] on two dual numbers is the comparison
    of their real components; the indeterminate components do not take part
    (replacing them changes no result), and [(1,100) < (2,-100)] is true. *)
Theorem ordering_compares_real_parts (x1 y1 x2 y2 : float) :
  __lt__ (make x1 y1) (VDual (make x2 y2)) = Ok (x1 <? x2)%float /\
  __le__ (make x1 y1) (VDual (make x2 y2)) = Ok (x1 <=? x2)%float /\
  __gt__ (make x1 y1) (VDual (make x2 y2)) = Ok (x2 <? x1)%float /\
  __ge__ (make x1 y1) (VDual (make x2 y2)) = Ok (x2 <=? x1)%float /\
  (forall y1' y2' : float,
     __lt__ (make x1 y1') (VDual (make x2 y2')) = __lt__ (make x1 y1) (VDual (make x2 y2)) /\
     __le__ (make x1 y1') (VDual (make x2 y2')) = __le__ (make x1 y1) (VDual (make x2 y2)) /\
     __gt__ (make x1 y1') (VDual (make x2 y2')) = __gt__ (make x1 y1) (VDual (make x2 y2)) /\
     __ge__ (make x1 y1') (VDual (make x2 y2')) = __ge__ (make x1 y1) (VDual (make x2 y2))) /\
  __lt__ (make 1 100) (VDual (make 2 (-100))) = Ok true.
Proof. repeat split. Qed.

(** ** Equality *)

Lemma eq_make (x1 y1 x2 y2 : float) :
  __eq__ (make x1 y1) (VDual (make x2 y2)) =
  Ok ((abs (x1 - x2) <=? precision)%float && (abs (y1 - y2) <=? precision)%float).
Proof.
  unfold __eq__. cbn. destruct (abs (x1 - x2) <=? precision)%float; reflexivity.
Qed.

(** C2: [a == b] on two dual numbers is true exactly when both component
    differences, as the floats the subtraction yields, are at most [1e-8] in
    absolute value.  Differences of [5e-9] compare equal and differences of
    [5e-7] compare unequal, also for [(1,2)] against [(1,2)] shifted by these
    amounts.  A right operand of type int, float or str is first converted
    with [dual(...)]. *)
Theorem eq_within_tolerance (x1 y1 x2 y2 : float) :
  __eq__ (make x1 y1) (VDual (make x2 y2)) =
    Ok ((abs (x1 - x2) <=? 1e-8)%float && (abs (y1 - y2) <=? 1e-8)%float) /\
  (__eq__ (make x1 y1) (VDual (make x2 y2)) = Ok true <->
     (abs (x1 - x2) <=? 1e-8)%float = true /\ (abs (y1 - y2) <=? 1e-8)%float = true) /\
  (abs (x1 - x2) = 5e-9%float -> abs (y1 - y2) = 5e-9%float ->
     __eq__ (make x1 y1) (VDual (make x2 y2)) = Ok true) /\
  (abs (x1 - x2) = 5e-7%float -> abs (y1 - y2) = 5e-7%float ->
     __eq__ (make x1 y1) (VDual (make x2 y2)) = Ok false) /\
  __eq__ (make 1 2) (VDual (make (1 + 5e-9) (2 + 5e-9))) = Ok true /\
  __eq__ (make 1 2) (VDual (make (1 + 5e-7) (2 + 5e-7))) = Ok false /\
  (forall v : value, type_in v [Tint; Tfloat; Tstr] = true ->
     __eq__ (make x1 y1) v = (o ← dual1 v; __eq__ (make x1 y1) (VDual o))).
Proof.
  rewrite eq_make. change precision with 1e-8%float.
  split; [reflexivity|]. split.
  - split.
    + intros [= E]. now apply andb_prop in E.
    + intros [-> ->]. reflexivity.
  - split; [intros -> ->; reflexivity|].
    split; [intros -> ->; reflexivity|].
    split; [reflexivity|]. split; [reflexivity|].
    intros v Hv. unfold __eq__ at 1. rewrite Hv.
    destruct (dual1 v) as [o|e]; reflexivity.
Qed.

(** ** The named power *)

Lemma SFeqb_refl (a : spec_float) : a <> S754_nan -> SFeqb a a = true.
Proof.
  destruct a as [s|s| |s m e]; intros Hn; try done; unfold SFeqb; cbn.
  - destruct s; reflexivity.
  - rewrite Z.compare_refl.
    change (Pos.compare_cont Eq m m) with (Pos.compare m m).
    rewrite Pos.compare_refl. destruct s; reflexivity.
Qed.

Lemma leb_not_nan (a b : float) : (a <=? b)%float = true -> is_nan a = false.
Proof.
  rewrite leb_spec. unfold is_nan. rewrite FloatAxioms.eqb_spec. intros Hle.
  rewrite SFeqb_refl; [reflexivity|].
  intros E. rewrite E in Hle. discriminate Hle.
Qed.

(** C10: for a base whose real component is zero or negative and an
    exponent of type float, dual or str whose converted real part is
    positive, [pow] raises the [ValueError] of [math.log], which is not the
    module's [DualException]. *)
Theorem pow_log_domain_error (x1 y1 : float) (n : value) (c d : float) :
  (x1 <=? 0)%float = true ->
  type_in n [Tfloat; Tdual; Tstr] = true ->
  dual1 n = Ok (make c d) ->
  (0 <? c)%float = true ->
  pow (make x1 y1) n = Raise ValueError /\
  forall msg : string, ValueError <> DualException msg.
Proof.
  intros Hx Hn Hc Hpos. split; [|discriminate].
  unfold pow. rewrite Hc. cbn [mbind result_bind re im getattr_x getattr_y make x y].
  rewrite Hpos.
  assert (math_log x1 = Raise ValueError) as Hlog.
  { unfold math_log. now rewrite (leb_not_nan _ _ Hx), Hx. }
  destruct n; try discriminate Hn; cbn [mbind result_bind]; now rewrite Hlog.
Qed.

Lemma compare_zero_cases (c : float) :
  ((0 <? c)%float = true -> (c =? 0)%float = false /\ (c <? 0)%float = false) /\
  ((c =? 0)%float = true -> (0 <? c)%float = false /\ (c <? 0)%float = false) /\
  ((c <? 0)%float = true -> (0 <? c)%float = false /\ (c =? 0)%float = false).
Proof.
  rewrite !ltb_spec, !FloatAxioms.eqb_spec, Prim2SF_zero.
  destruct (Prim2SF c) as [s|s| |s m e]; cbn; repeat split; try done;
    destruct s; done.
Qed.

Lemma dual1_int (n : Z) :
  dual1 (VInt n) = (c ← float_of_int n; Ok (make c 0)).
Proof. unfold dual1, __init__. cbn. destruct (float_of_int n); reflexivity. Qed.

Lemma pow_int_positive (x1 y1 : float) (n : Z) :
  0 < n -> pow (make x1 y1) (VInt n) = pow_integer_rule x1 y1 n.
Proof.
  intros Hn. pose proof (float_of_int_sign n) as Hs.
  pose proof (dual1_int n) as Hd.
  destruct (float_of_int n) as [c|e] eqn:Hc; cbn [mbind result_bind] in Hd.
  - destruct Hs as [Hs _]. unfold pow. rewrite Hd.
    cbn [mbind result_bind re getattr_x getattr_y make x y]. rewrite (Hs Hn).
    unfold pow_integer_rule.
    destruct (float_pow x1 n) as [p|e]; cbn [mbind result_bind]; [|reflexivity].
    destruct (float_pow x1 (n - 1)) as [q|e]; cbn [mbind result_bind]; [|reflexivity].
    destruct (int_mul_float n q) as [k|e]; reflexivity.
  - unfold pow. rewrite Hd. unfold pow_integer_rule, float_pow. now rewrite Hc.
Qed.

Lemma pow_general (x1 y1 : float) (n : value) (c d : float) :
  type_in n [Tfloat; Tdual; Tstr] = true ->
  dual1 n = Ok (make c d) ->
  (0 <? c)%float = true ->
  pow (make x1 y1) n = pow_general_rule x1 y1 c d.
Proof.
  intros Hn Hc Hpos. unfold pow, pow_general_rule. rewrite Hc.
  cbn [mbind result_bind re im getattr_x getattr_y make x y]. rewrite Hpos.
  destruct n; try discriminate Hn; cbn [mbind result_bind];
    (destruct (math_log x1) as [l|e]; cbn [mbind result_bind]; [|reflexivity];
     destruct (math_exp (c * l)) as [ex|e]; cbn [mbind result_bind]; [|reflexivity];
     destruct (float_div (c * y1) x1) as [u|e]; reflexivity).
Qed.

Lemma math_log_value (a r : float) :
  libm_log a = r ->
  is_nan a = false -> (a <=? 0)%float = false -> is_infinity a = false ->
  is_nan r || is_infinity r = false ->
  math_log a = Ok r.
Proof. intros Hr Ha1 Ha2 Ha3 Hr'. unfold math_log. now rewrite Ha1, Ha2, Ha3, Hr, Hr'. Qed.

Lemma math_exp_value (a r : float) :
  libm_exp a = r -> is_nan r = false -> is_infinity r = false -> math_exp a = Ok r.
Proof. intros Hr Hr1 Hr2. unfold math_exp. now rewrite Hr, Hr1, Hr2. Qed.

Lemma float_of_int_exn (n : Z) (e : exn) :
  float_of_int n = Raise e -> e = OverflowError.
Proof. unfold float_of_int. destruct (is_infinity _); congruence. Qed.

Lemma float_pow_exn (v : float) (n : Z) (e : exn) :
  float_pow v n = Raise e -> e = OverflowError \/ e = ZeroDivisionError.
Proof.
  unfold float_pow.
  destruct (float_of_int n) as [iw|e'] eqn:Hn; cbn [mbind result_bind].
  - repeat match goal with
           | |- context [if ?b then _ else _] => destruct b
           end; intros [= <-] || intros [=]; auto.
  - intros [= <-]. left. eapply float_of_int_exn, Hn.
Qed.

Lemma int_mul_float_exn (n : Z) (f : float) (e : exn) :
  int_mul_float n f = Raise e -> e = OverflowError.
Proof.
  unfold int_mul_float.
  destruct (float_of_int n) as [c|e'] eqn:Hn; cbn [mbind result_bind]; [done|].
  intros [= <-]. eapply float_of_int_exn, Hn.
Qed.

Lemma pow_integer_rule_exn (x1 y1 : float) (n : Z) (e : exn) :
  pow_integer_rule x1 y1 n = Raise e -> e = OverflowError \/ e = ZeroDivisionError.
Proof.
  unfold pow_integer_rule.
  destruct (float_pow x1 n) as [p|e1] eqn:H1; cbn [mbind result_bind];
    [|intros [= <-]; eapply float_pow_exn, H1].
  destruct (float_pow x1 (n - 1)) as [q|e2] eqn:H2; cbn [mbind result_bind];
    [|intros [= <-]; eapply float_pow_exn, H2].
  destruct (int_mul_float n q) as [k|e3] eqn:H3; cbn [mbind result_bind]; [done|].
  intros [= <-]. left. eapply int_mul_float_exn, H3.
Qed.

(** With an exponent that is not negative, the float power fails by
    overflow only. *)
Lemma float_pow_nonneg_exn (v : float) (n : Z) (e : exn) :
  0 <= n -> float_pow v n = Raise e -> e = OverflowError.
Proof.
  intros Hn. unfold float_pow.
  pose proof (float_of_int_sign n) as Hs.
  destruct (float_of_int n) as [iw|e'] eqn:Hf; cbn [mbind result_bind];
    [|intros [= <-]; exact Hs].
  destruct (iw =? 0)%float eqn:Hz; [discriminate|].
  assert ((iw <? 0)%float = false) as Hneg.
  { destruct (Z.eq_dec n 0) as [-> | Hn0].
    - injection Hf as <-. discriminate Hz.
    - destruct Hs as [Hs _]. destruct (compare_zero_cases iw) as (Hc & _ & _).
      apply Hc, Hs. lia. }
  rewrite Hneg.
  repeat match goal with
         | |- context [if ?b then _ else _] => destruct b
         end; intros [= <-] || intros [=]; reflexivity.
Qed.

Lemma pow_integer_rule_nonneg_exn (x1 y1 : float) (n : Z) (e : exn) :
  0 < n -> pow_integer_rule x1 y1 n = Raise e -> e = OverflowError.
Proof.
  intros Hn. unfold pow_integer_rule.
  destruct (float_pow x1 n) as [p|e1] eqn:H1; cbn [mbind result_bind];
    [|intros [= <-]; eapply float_pow_nonneg_exn; [|exact H1]; lia].
  destruct (float_pow x1 (n - 1)) as [q|e2] eqn:H2; cbn [mbind result_bind];
    [|intros [= <-]; eapply float_pow_nonneg_exn; [|exact H2]; lia].
  destruct (int_mul_float n q) as [k|e3] eqn:H3; cbn [mbind result_bind]; [done|].
  intros [= <-]. eapply int_mul_float_exn, H3.
Qed.

Lemma math_log_exn (a : float) (e : exn) : math_log a = Raise e -> e = ValueError.
Proof.
  unfold math_log.
  repeat match goal with
         | |- context [if ?b then _ else _] => destruct b
         end; intros [= <-] || intros [=]; reflexivity.
Qed.

Lemma math_exp_exn (a : float) (e : exn) :
  math_exp a = Raise e -> e = ValueError \/ e = OverflowError.
Proof.
  unfold math_exp.
  repeat match goal with
         | |- context [if ?b then _ else _] => destruct b
         end; intros [= <-] || intros [=]; auto.
Qed.

(** A base whose logarithm [math.log] returns is not zero. *)
Lemma math_log_nonzero (a l : float) : math_log a = Ok l -> (a =? 0)%float = false.
Proof.
  unfold math_log. intros Hl.
  destruct (a =? 0)%float eqn:Hz; [|reflexivity]. exfalso.
  assert ((a <=? 0)%float = true /\ is_nan a = false) as [Hle Hn].
  { revert Hz. unfold is_nan.
    rewrite !FloatAxioms.eqb_spec, leb_spec, Prim2SF_zero.
    destruct (Prim2SF a) as [s|s| |s m e]; try discriminate; destruct s; done. }
  rewrite Hn, Hle in Hl. discriminate Hl.
Qed.

Lemma pow_general_rule_value (x1 y1 c d l e : float) :
  math_log x1 = Ok l -> math_exp (c * l) = Ok e ->
  pow_general_rule x1 y1 c d = Ok (make e (e * (c * y1 / x1 + d * l))).
Proof.
  intros Hl He. unfold pow_general_rule, float_div.
  rewrite Hl. cbn [mbind result_bind]. rewrite He. cbn [mbind result_bind].
  now rewrite (math_log_nonzero _ _ Hl).
Qed.

Lemma pow_general_rule_exn (x1 y1 c d : float) (e : exn) :
  pow_general_rule x1 y1 c d = Raise e -> e = ValueError \/ e = OverflowError.
Proof.
  unfold pow_general_rule.
  destruct (math_log x1) as [l|e1] eqn:Hl; cbn [mbind result_bind];
    [|intros [= <-]; left; eapply math_log_exn, Hl].
  destruct (math_exp (c * l)) as [ex|e2] eqn:He; cbn [mbind result_bind];
    [|intros [= <-]; eapply math_exp_exn, He].
  unfold float_div. now rewrite (math_log_nonzero _ _ Hl).
Qed.

Lemma pow_general_rule_domain (x1 y1 c d : float) :
  (x1 <=? 0)%float = true -> pow_general_rule x1 y1 c d = Raise ValueError.
Proof.
  intros Hle. unfold pow_general_rule, math_log.
  now rewrite (leb_not_nan _ _ Hle), Hle.
Qed.

(** C1, as amended: [pow] dispatches on the type of the exponent.  A
    positive int takes the integer rule, whose result is the pair
    [(x1^n, n * x1^(n-1) * y1)] when the host's float power and the
    conversion of [n] return, and which otherwise raises [OverflowError]; a
    float, dual or str with positive converted real part [c] takes the
    general rule with the converted indeterminate part [d], whose result is
    the pair [(e, e * (c*y1/x1 + d * ln x1))] when [math.log] and [math.exp]
    return, which raises [ValueError] for every [x1 <= 0] and otherwise
    nothing but [ValueError] or [OverflowError]; a real part equal to zero
    gives [(1, 0)]; a negative one raises [DualException].  The two literal
    scenarios hold within the tolerance on every host whose [log] and [exp]
    are exact at [log 1] and [exp 0], whose [log 3] is within one unit in the
    last place of its value and whose [exp] of that is within one unit in the
    last place of [3]. *)
Theorem pow_dispatch (x1 y1 : float) :
  (forall n : Z, 0 < n ->
     pow (make x1 y1) (VInt n) = pow_integer_rule x1 y1 n /\
     (forall p q k : float,
        float_pow x1 n = Ok p -> float_pow x1 (n - 1) = Ok q -> float_of_int n = Ok k ->
        pow (make x1 y1) (VInt n) = Ok (make p (k * q * y1))) /\
     (forall e : exn, pow (make x1 y1) (VInt n) = Raise e -> e = OverflowError)) /\
  (forall (n : value) (c d : float),
     type_in n [Tfloat; Tdual; Tstr] = true ->
     dual1 n = Ok (make c d) -> (0 <? c)%float = true ->
     pow (make x1 y1) n = pow_general_rule x1 y1 c d /\
     (forall l e : float,
        math_log x1 = Ok l -> math_exp (c * l) = Ok e ->
        pow (make x1 y1) n = Ok (make e (e * (c * y1 / x1 + d * l)))) /\
     ((x1 <=? 0)%float = true -> pow (make x1 y1) n = Raise ValueError) /\
     (forall e : exn, pow (make x1 y1) n = Raise e ->
        e = ValueError \/ e = OverflowError)) /\
  (forall (n : value) (c d : float),
     dual1 n = Ok (make c d) -> (c =? 0)%float = true ->
     pow (make x1 y1) n = Ok (make 1 0)) /\
  (forall (n : value) (c d : float),
     dual1 n = Ok (make c d) -> (c <? 0)%float = true ->
     pow (make x1 y1) n = Raise (DualException "n must be non-negative")) /\
  (libm_log 1 = 0%float -> libm_exp 0 = 1%float ->
     equal (pow (make 1 2) (VDual (make 3 4))) (Ok (make 1 6)) = Ok true) /\
  (within_one_ulp (libm_log 3) ln3 ->
   within_one_ulp (libm_exp (libm_log 3)) 3 ->
     equal (pow (make 3 4) (VDual (make 1 2))) (Ok (make 3 10.59167373200866)) = Ok true).
Proof.
  split.
  { intros n Hn. rewrite (pow_int_positive x1 y1 n Hn).
    split; [reflexivity|]. split.
    - intros p q k Hp Hq Hk. unfold pow_integer_rule, int_mul_float.
      rewrite Hp, Hq, Hk. reflexivity.
    - intros e. now apply pow_integer_rule_nonneg_exn. }
  split.
  { intros n c d Hn Hc Hpos. rewrite (pow_general x1 y1 n c d Hn Hc Hpos).
    split; [reflexivity|]. split; [intros l e; apply pow_general_rule_value|].
    split; [apply pow_general_rule_domain | intros e; apply pow_general_rule_exn]. }
  split; [|split; [|split]].
  - intros n c d Hc Hz. destruct (compare_zero_cases c) as (_ & Hc0 & _).
    destruct (Hc0 Hz) as [Hp _].
    unfold pow. rewrite Hc. cbn [mbind result_bind re getattr_x make x y].
    rewrite Hp, Hz. reflexivity.
  - intros n c d Hc Hneg. destruct (compare_zero_cases c) as (_ & _ & Hc0).
    destruct (Hc0 Hneg) as [Hp Hz].
    unfold pow. rewrite Hc. cbn [mbind result_bind re getattr_x make x y].
    rewrite Hp, Hz. reflexivity.
  - intros Hlog Hexp.
    rewrite (pow_general 1 2 (VDual (make 3 4)) 3 4) by reflexivity.
    unfold pow_general_rule.
    rewrite (math_log_value 1 0 Hlog) by reflexivity. cbn [mbind result_bind].
    rewrite (math_exp_value (3 * 0) 1 Hexp) by reflexivity. reflexivity.
  - intros Hlog He.
    rewrite (pow_general 3 4 (VDual (make 1 2)) 1 2) by reflexivity.
    unfold pow_general_rule.
    destruct Hlog as [Hl | [Hl | Hl]];
      rewrite (math_log_value 3 _ Hl) by reflexivity; cbn [mbind result_bind];
      rewrite Hl in He;
      (destruct He as [He | [He | He]];
       lazymatch type of He with
       | libm_exp ?l = _ => replace (1 * l)%float with l by reflexivity
       end;
       rewrite (math_exp_value _ _ He) by reflexivity; reflexivity).
Qed.

(** ** The power operator *)

Lemma pow_operator_int (x1 y1 : float) (n : Z) :
  1 < n -> __pow__ (make x1 y1) (VInt n) = pow_integer_rule x1 y1 n.
Proof.
  intros Hn. unfold __pow__, pow_integer_rule.
  replace (1 <? n) with true by lia.
  cbn [mbind result_bind getattr_x getattr_y make x y].
  destruct (float_pow x1 n) as [p|e]; cbn [mbind result_bind]; [|reflexivity].
  destruct (float_pow x1 (n - 1)) as [q|e]; cbn [mbind result_bind]; [|reflexivity].
  destruct (int_mul_float n q) as [k|e]; reflexivity.
Qed.

Lemma pow_operator_raises (x1 y1 : float) (n : value) :
  (exists msg, __pow__ (make x1 y1) n = Raise (DualException msg)) <->
  (type_of n <> Tint \/ exists z, n = VInt z /\ z < 0).
Proof.
  split.
  - intros [msg Hr]. destruct n as [z| | | | | | |]; try (left; discriminate).
    right. exists z. split; [reflexivity|].
    destruct (Z.lt_ge_cases z 0) as [|Hz]; [done|]. exfalso.
    destruct (Z.lt_ge_cases 1 z) as [H1|H1].
    + rewrite pow_operator_int in Hr by done.
      apply pow_integer_rule_exn in Hr. destruct Hr; discriminate.
    + assert (z = 0 \/ z = 1) as [-> | ->] by lia; discriminate Hr.
  - intros [Hn | (z & -> & Hz)].
    + destruct n; try (eexists; reflexivity). now contradiction Hn.
    + exists "n must be non-negative". unfold __pow__.
      replace (1 <? z) with false by lia.
      replace (z =? 1) with false by lia.
      replace (z =? 0) with false by lia. reflexivity.
Qed.

(** For an int exponent other than 1, [pow] and [**] are one computation. *)
Lemma pow_method_operator (x1 y1 : float) (n : Z) :
  0 <= n -> n <> 1 ->
  pow (make x1 y1) (VInt n) = __pow__ (make x1 y1) (VInt n).
Proof.
  intros Hn H1. destruct (Z.eq_dec n 0) as [-> | H0]; [reflexivity|].
  rewrite pow_int_positive, pow_operator_int by lia. reflexivity.
Qed.

(** A value with finite components equals itself. *)
Lemma eq_refl_finite (u v : float) :
  is_finite u = true -> is_finite v = true ->
  __eq__ (make u v) (VDual (make u v)) = Ok true.
Proof.
  intros Hu Hv. rewrite eq_make.
  assert (forall w, is_finite w = true -> (abs (w - w) <=? precision)%float = true) as Hw.
  { intros w Hf. apply is_finite_SF in Hf.
    rewrite leb_spec, abs_spec, sub_spec. unfold SF64sub.
    rewrite SFsub_diag_finite by done. reflexivity. }
  now rewrite !Hw.
Qed.

(** C3, as amended: [a ** n] takes the integer rule for an int [n > 1]
    (the host's float power, whose overflow is an [OverflowError]), returns
    [(x1, y1)] for [n = 1] and [(1, 0)] for [n = 0], and raises
    [DualException] exactly when [n] is not an int or is negative.  For every
    int [n >= 0] other than 1, [a.pow(n)] and [a ** n] are one computation,
    so they compare equal whenever the result has finite components.  For the
    test value [a = (1, 2)] and [n <= 4], [a ** n] equals the product of [n]
    copies of [a], [a ** 0 == 1], and [a.pow(n) == a ** n]. *)
Theorem pow_operator (x1 y1 : float) :
  (forall n : Z, 1 < n ->
     __pow__ (make x1 y1) (VInt n) = pow_integer_rule x1 y1 n) /\
  __pow__ (make x1 y1) (VInt 1) = Ok (make x1 y1) /\
  __pow__ (make x1 y1) (VInt 0) = Ok (make 1 0) /\
  (forall n : value,
     (exists msg, __pow__ (make x1 y1) n = Raise (DualException msg)) <->
     (type_of n <> Tint \/ exists z, n = VInt z /\ z < 0)) /\
  (forall n : Z, 0 <= n -> n <> 1 ->
     pow (make x1 y1) (VInt n) = __pow__ (make x1 y1) (VInt n)) /\
  (forall (n : Z) (u v : float),
     0 <= n -> n <> 1 -> __pow__ (make x1 y1) (VInt n) = Ok (make u v) ->
     is_finite u = true -> is_finite v = true ->
     equal (pow (make x1 y1) (VInt n)) (__pow__ (make x1 y1) (VInt n)) = Ok true) /\
  (r ← __pow__ (make 1 2) (VInt 0); __eq__ r (VInt 1)) = Ok true /\
  equal (__pow__ (make 1 2) (VInt 1)) (Ok (make 1 2)) = Ok true /\
  equal (__pow__ (make 1 2) (VInt 2))
        (__mul__ (make 1 2) (VDual (make 1 2))) = Ok true /\
  equal (__pow__ (make 1 2) (VInt 3))
        (p ← __mul__ (make 1 2) (VDual (make 1 2));
         __mul__ p (VDual (make 1 2))) = Ok true /\
  equal (__pow__ (make 1 2) (VInt 4))
        (p ← __mul__ (make 1 2) (VDual (make 1 2));
         q ← __mul__ p (VDual (make 1 2));
         __mul__ q (VDual (make 1 2))) = Ok true /\
  (forall n : Z, 0 <= n <= 4 ->
     equal (pow (make 1 2) (VInt n)) (__pow__ (make 1 2) (VInt n)) = Ok true).
Proof.
  split; [intros n; apply pow_operator_int|].
  split; [reflexivity|]. split; [reflexivity|].
  split; [apply pow_operator_raises|].
  split; [intros n; apply pow_method_operator|].
  split.
  { intros n u v Hn H1 Hr Hu Hv. rewrite pow_method_operator, Hr by done.
    now apply eq_refl_finite. }
  repeat (split; [reflexivity|]).
  intros n Hn.
  assert (n = 0 \/ n = 1 \/ n = 2 \/ n = 3 \/ n = 4) as [-> | [-> | [-> | [-> | ->]]]] by lia;
    reflexivity.
Qed.


(** ** The inverse laws *)

Lemma grid_roundtrip_true : grid_roundtrip = true.
Proof. vm_compute. reflexivity. Qed.

Lemma sub_neg_swap_finite (x1 y1 x2 y2 : float) :
  is_finite (x1 - x2) = true -> is_finite (y1 - y2) = true ->
  sub_neg_swap (make x1 y1) (make x2 y2) = Ok true.
Proof.
  intros Hx Hy. unfold sub_neg_swap, equal. cbn.
  change (__eq__ (make (x1 - x2) (y1 - y2)) (VDual (make (- (x2 - x1)) (- (y2 - y1)))) = Ok true).
  rewrite eq_make, !sub_swap_within by done. reflexivity.
Qed.

(** C8, as amended: [a - b == -(b - a)] whenever both components of [a - b]
    are finite; [(a / b) * b == a] for the test values [a = (1, 2)],
    [b = (3, 4)] and for all operands whose components are integers between
    [-8] and [8] with [b]'s real component not zero. *)
Theorem sub_div_inverse (x1 y1 x2 y2 : float) :
  (is_finite (x1 - x2) = true -> is_finite (y1 - y2) = true ->
     sub_neg_swap (make x1 y1) (make x2 y2) = Ok true) /\
  div_mul_roundtrip (make 1 2) (make 3 4) = Ok true /\
  (forall x1 y1 x2 y2 : float,
     In x1 small_integers -> In y1 small_integers ->
     In x2 small_integers -> In y2 small_integers -> (x2 =? 0)%float = false ->
     div_mul_roundtrip (make x1 y1) (make x2 y2) = Ok true).
Proof.
  split; [apply sub_neg_swap_finite|]. split; [reflexivity|].
  intros u1 v1 u2 v2 Hu1 Hv1 Hu2 Hv2 Hnz.
  pose proof grid_roundtrip_true as G. unfold grid_roundtrip in G.
  rewrite forallb_forall in G. specialize (G u1 Hu1).
  rewrite forallb_forall in G. specialize (G v1 Hv1).
  rewrite forallb_forall in G. specialize (G u2 Hu2).
  rewrite forallb_forall in G. specialize (G v2 Hv2).
  rewrite Hnz in G. cbn [orb] in G.
  destruct (div_mul_roundtrip _ _) as [[|]|e]; done.
Qed.

(** ** Compound assignment *)

Lemma run_bind {A B : Type} (m : M A) (f : A -> M B) (h : gmap loc t) :
  (m ≫= f) h =
  match m h with
  | (Ok a, h') => f a h'
  | (Raise e, h') => (Raise e, h')
  end.
Proof. reflexivity. Qed.

Lemma alloc_spec (o : t) (h : gmap loc t) :
  exists l, alloc o h = (Ok l, <[l := o]> h) /\ h !! l = None.
Proof.
  exists (fresh (dom h)). split; [reflexivity|].
  apply not_elem_of_dom, is_fresh.
Qed.

(** After the conversion of the operand, [other] is the address of a [dual]
    whose attributes are those of [coerce] on the operand's value; [self] is
    untouched, and the two differ unless the operand was [self] itself. *)
Lemma coerce_ref_spec (h : gmap loc t) (self : loc) (a : t) (b : ref) (v : value) (o : t) :
  h !! self = Some a -> snapshot h b = Some v -> coerce v = Ok o ->
  exists l h0, coerce_ref b h = (Ok l, h0) /\
               h0 !! self = Some a /\ h0 !! l = Some o /\
               (b <> VDual self -> l <> self).
Proof.
  intros Hs Hv Hc.
  destruct b as [n|f|s|c| |l|ty|ty l]; cbn [snapshot] in Hv.
  8: { unfold coerce_ref. cbn [snapshot].
       destruct (h !! l) as [o'|] eqn:Hl; [|discriminate Hv].
       injection Hv as <-. cbn [coerce] in Hc.
       cbn [fmap option_fmap option_map]. rewrite run_bind. unfold lift. rewrite Hc.
       destruct (alloc_spec o h) as (l' & -> & Hl').
       exists l', (<[l' := o]> h).
       split; [reflexivity|].
       assert (l' <> self) by congruence.
       split; [now rewrite lookup_insert_ne|].
       split; [apply lookup_insert_eq | done]. }
  6: { destruct (h !! l) as [o'|] eqn:Hl; [|discriminate Hv].
       injection Hv as <-. injection Hc as <-.
       exists l, h. repeat split; try done. congruence. }
  all: injection Hv as <-; cbn [coerce] in Hc;
    unfold coerce_ref; cbn [snapshot]; rewrite run_bind; unfold lift; rewrite Hc;
    destruct (alloc_spec o h) as (l & -> & Hl);
    exists l, (<[l := o]> h);
    (split; [reflexivity|]);
    assert (l <> self) by congruence;
    (split; [now rewrite lookup_insert_ne|]);
    (split; [apply lookup_insert_eq | done]).
Qed.

Ltac run :=
  unfold get_x, get_y, set_x, set_y;
  repeat first
    [ rewrite run_bind
    | progress unfold load, store, lift, mret, M_ret
    | rewrite lookup_insert_eq
    | rewrite lookup_insert_ne by done
    | match goal with
      | Hl : ?h !! ?l = Some _ |- context [?h !! ?l] => rewrite Hl
      end
    | progress cbn [getattr_x getattr_y make x y]
    | progress lazy beta iota ].

Lemma add_inv (a : t) (v : value) (r : t) :
  __add__ a v = Ok r ->
  exists o x1 y1 x2 y2, coerce v = Ok o /\ a = make x1 y1 /\ o = make x2 y2 /\
    r = make (x1 + x2) (y1 + y2).
Proof.
  unfold __add__. destruct (coerce v) as [o|e]; [|discriminate].
  destruct a as [[x1|] [y1|]], o as [[x2|] [y2|]]; try discriminate.
  intros [= <-]. now exists (make x2 y2), x1, y1, x2, y2.
Qed.

Lemma sub_inv (a : t) (v : value) (r : t) :
  __sub__ a v = Ok r ->
  exists o x1 y1 x2 y2, coerce v = Ok o /\ a = make x1 y1 /\ o = make x2 y2 /\
    r = make (x1 - x2) (y1 - y2).
Proof.
  unfold __sub__. destruct (coerce v) as [o|e]; [|discriminate].
  destruct a as [[x1|] [y1|]], o as [[x2|] [y2|]]; try discriminate.
  intros [= <-]. now exists (make x2 y2), x1, y1, x2, y2.
Qed.

Lemma mul_inv (a : t) (v : value) (r : t) :
  __mul__ a v = Ok r ->
  exists o x1 y1 x2 y2, coerce v = Ok o /\ a = make x1 y1 /\ o = make x2 y2 /\
    r = make (x1 * x2) (x1 * y2 + y1 * x2).
Proof.
  unfold __mul__. destruct (coerce v) as [o|e]; [|discriminate].
  destruct a as [[x1|] [y1|]], o as [[x2|] [y2|]]; try discriminate.
  intros [= <-]. now exists (make x2 y2), x1, y1, x2, y2.
Qed.

Lemma truediv_inv (a : t) (v : value) (r : t) :
  __truediv__ a v = Ok r ->
  exists o x1 y1 x2 y2 q p, coerce v = Ok o /\ a = make x1 y1 /\ o = make x2 y2 /\
    float_div x1 x2 = Ok q /\
    float_div (y1 * x2 - x1 * y2) (x2 * x2) = Ok p /\
    r = make q p.
Proof.
  unfold __truediv__. destruct (coerce v) as [o|e]; [|discriminate].
  destruct a as [[x1|] y1o]; [|discriminate].
  destruct o as [[x2|] y2o]; [|discriminate].
  cbn. destruct (float_div x1 x2) as [q|e] eqn:Hq; [|discriminate].
  destruct y1o as [y1|]; [|discriminate].
  destruct y2o as [y2|]; [|discriminate].
  cbn. destruct (float_div (y1 * x2 - x1 * y2) (x2 * x2)) as [p|e] eqn:Hp; [|discriminate].
  intros [= <-]. now exists (make x2 y2), x1, y1, x2, y2, q, p.
Qed.

Lemma iadd_refines (h : gmap loc t) (self : loc) (a : t) (b : ref) (v : value) (r : t) :
  h !! self = Some a -> snapshot h b = Some v -> __add__ a v = Ok r ->
  exists h', __iadd__ self b h = (Ok self, h') /\ h' !! self = Some r.
Proof.
  intros Hs Hv Hr.
  destruct (add_inv _ _ _ Hr) as (o & x1 & y1 & x2 & y2 & Hc & -> & -> & ->).
  destruct (coerce_ref_spec _ _ _ _ _ _ Hs Hv Hc) as (l & h0 & Hcr & Hs0 & Hl0 & _).
  unfold __iadd__. rewrite run_bind, Hcr.
  destruct (decide (l = self)) as [-> | Hne].
  - assert (x2 = x1 /\ y2 = y1) as [-> ->] by (rewrite Hs0 in Hl0; now injection Hl0).
    run. eexists. split; [reflexivity|]. now run.
  - run. eexists. split; [reflexivity|]. now run.
Qed.

Lemma isub_refines (h : gmap loc t) (self : loc) (a : t) (b : ref) (v : value) (r : t) :
  h !! self = Some a -> snapshot h b = Some v -> __sub__ a v = Ok r ->
  exists h', __isub__ self b h = (Ok self, h') /\ h' !! self = Some r.
Proof.
  intros Hs Hv Hr.
  destruct (sub_inv _ _ _ Hr) as (o & x1 & y1 & x2 & y2 & Hc & -> & -> & ->).
  destruct (coerce_ref_spec _ _ _ _ _ _ Hs Hv Hc) as (l & h0 & Hcr & Hs0 & Hl0 & _).
  unfold __isub__. rewrite run_bind, Hcr.
  destruct (decide (l = self)) as [-> | Hne].
  - assert (x2 = x1 /\ y2 = y1) as [-> ->] by (rewrite Hs0 in Hl0; now injection Hl0).
    run. eexists. split; [reflexivity|]. now run.
  - run. eexists. split; [reflexivity|]. now run.
Qed.

Lemma imul_refines (h : gmap loc t) (self : loc) (a : t) (b : ref) (v : value) (r : t) :
  h !! self = Some a -> snapshot h b = Some v -> b <> VDual self ->
  __mul__ a v = Ok r ->
  exists h', __imul__ self b h = (Ok self, h') /\ h' !! self = Some r.
Proof.
  intros Hs Hv Hb Hr.
  destruct (mul_inv _ _ _ Hr) as (o & x1 & y1 & x2 & y2 & Hc & -> & -> & ->).
  destruct (coerce_ref_spec _ _ _ _ _ _ Hs Hv Hc) as (l & h0 & Hcr & Hs0 & Hl0 & Hne).
  specialize (Hne Hb).
  unfold __imul__. rewrite run_bind, Hcr.
  run. eexists. split; [reflexivity|]. run.
  now rewrite (float_add_comm (y1 * x2) (x1 * y2)).
Qed.

Lemma itruediv_refines (h : gmap loc t) (self : loc) (a : t) (b : ref) (v : value) (r : t) :
  h !! self = Some a -> snapshot h b = Some v -> b <> VDual self ->
  __truediv__ a v = Ok r ->
  exists h', __itruediv__ self b h = (Ok self, h') /\ h' !! self = Some r.
Proof.
  intros Hs Hv Hb Hr.
  destruct (truediv_inv _ _ _ Hr)
    as (o & x1 & y1 & x2 & y2 & q & p & Hc & -> & -> & Hq & Hp & ->).
  destruct (coerce_ref_spec _ _ _ _ _ _ Hs Hv Hc) as (l & h0 & Hcr & Hs0 & Hl0 & Hne).
  specialize (Hne Hb).
  unfold __itruediv__. rewrite run_bind, Hcr.
  run. rewrite Hp. run. rewrite Hq. run.
  eexists. split; [reflexivity|]. now run.
Qed.

Ltac bind_inv Hr :=
  repeat lazymatch type of Hr with
         | mbind _ ?m = Ok _ =>
             let E := fresh "E" in
             destruct m eqn:E; cbn [mbind result_bind] in Hr; [|discriminate Hr]
         end.

(** What [pow] returns has both attributes. *)
Lemma pow_returns_make (a : t) (n : value) (r : t) :
  pow a n = Ok r -> exists u v, r = make u v.
Proof.
  intros Hr. unfold pow in Hr. bind_inv Hr.
  destruct (0 <? _)%float.
  - bind_inv Hr. destruct n; try discriminate Hr; bind_inv Hr;
      injection Hr as <-; eauto.
  - destruct (_ =? 0)%float; [|discriminate Hr].
    injection Hr as <-. eauto.
Qed.

(** [a **= b] stores [a.pow(dual(b))]. *)
Lemma ipow_refines (h : gmap loc t) (self : loc) (a : t) (b : ref) (v : value) (o r : t) :
  h !! self = Some a -> snapshot h b = Some v ->
  coerce v = Ok o -> pow a (VDual o) = Ok r ->
  exists h', __ipow__ self b h = (Ok self, h') /\ h' !! self = Some r.
Proof.
  intros Hs Hv Hc Hr.
  destruct (pow_returns_make _ _ _ Hr) as (u & w & ->).
  destruct (coerce_ref_spec _ _ _ _ _ _ Hs Hv Hc) as (l & h0 & Hcr & Hs0 & Hl0 & _).
  unfold __ipow__. rewrite run_bind, Hcr.
  run. rewrite Hr.
  destruct (alloc_spec (make u w) h0) as (l1 & E1 & Hl1).
  run. rewrite E1. assert (l1 <> self) by congruence.
  run.
  change (dual1 (VDual (make u w))) with (Ok (make u w)).
  destruct (alloc_spec (make u w) (<[l1 := make u w]> h0)) as (l2 & E2 & Hl2).
  run. rewrite E2.
  assert (l2 <> self).
  { intros ->. rewrite lookup_insert_ne in Hl2 by done. congruence. }
  destruct a as [ax ay].
  run. eexists. split; [reflexivity|]. now run.
Qed.

(** For an exponent that is no int, [pow] sees the same thing before and
    after the conversion. *)
Lemma pow_coerced (a : t) (v : value) (o : t) :
  type_in v [Tfloat; Tdual; Tstr] = true -> coerce v = Ok o ->
  forall r, pow a v = Ok r -> pow a (VDual o) = Ok r.
Proof.
  intros Hv Hc r Hr.
  assert (exists c d, dual1 v = Ok (make c d) /\ o = make c d) as (c & d & Hd & ->).
  { destruct v as [ | f | str | | | o' | | ]; try discriminate Hv; cbn [coerce] in Hc.
    - injection Hc as <-. exists f, 0%float. split; reflexivity.
    - pose proof Hc as Hd. unfold dual1, __init__ in Hc. bind_inv Hc.
      injection Hc as <-. eauto.
    - injection Hc as <-. unfold pow in Hr. bind_inv Hr.
      unfold dual1, __init__ in E. bind_inv E.
      destruct o' as [[ox|] [oy|]]; try discriminate.
      exists ox, oy. split; reflexivity. }
  unfold pow in *. rewrite Hd in Hr.
  change (dual1 (VDual (make c d))) with (Ok (make c d)).
  destruct v; try discriminate Hv; exact Hr.
Qed.

(** C4, as amended: on a heap where [self] is the object [a] and the operand
    [b] reads as [v], each compound assignment returns [self] itself and
    leaves in it the components of the reading operation's result on the
    state before: [a + b] for [+=] and [a - b] for [-=]; [a * b] for [*=] and
    [a / b] for [/=] when [b] is not [a] itself; and for [**=] the result of
    [a.pow(dual(b))], the exponent converted first, which is [a.pow(b)] for an
    exponent of type float, dual or str. *)
Theorem compound_assignment_refines
    (h : gmap loc t) (self : loc) (a : t) (b : ref) (v : value) (r : t) :
  h !! self = Some a -> snapshot h b = Some v ->
  (__add__ a v = Ok r ->
     exists h', __iadd__ self b h = (Ok self, h') /\ h' !! self = Some r) /\
  (__sub__ a v = Ok r ->
     exists h', __isub__ self b h = (Ok self, h') /\ h' !! self = Some r) /\
  (b <> VDual self -> __mul__ a v = Ok r ->
     exists h', __imul__ self b h = (Ok self, h') /\ h' !! self = Some r) /\
  (b <> VDual self -> __truediv__ a v = Ok r ->
     exists h', __itruediv__ self b h = (Ok self, h') /\ h' !! self = Some r) /\
  (forall o : t, coerce v = Ok o -> pow a (VDual o) = Ok r ->
     exists h', __ipow__ self b h = (Ok self, h') /\ h' !! self = Some r) /\
  (type_in v [Tfloat; Tdual; Tstr] = true -> pow a v = Ok r ->
     exists h', __ipow__ self b h = (Ok self, h') /\ h' !! self = Some r).
Proof.
  intros Hs Hv.
  split; [now apply iadd_refines|]. split; [now apply isub_refines|].
  split; [now apply imul_refines|]. split; [now apply itruediv_refines|].
  split; [intros o; now apply ipow_refines|].
  intros Ht Hr.
  assert (exists o, coerce v = Ok o) as [o Hc].
  { pose proof Hr as Hd. unfold pow in Hd. bind_inv Hd. bind_inv E.
    destruct v as [ | f | str | | | o' | | ]; try discriminate Ht; cbn [coerce]; eauto. }
  eapply ipow_refines; eauto using pow_coerced.
Qed.

(** ** Construction, inequality and string conversion *)

(** C5: the constructor given a list, [None] or a non-numeric [y] raises
    nothing and returns an instance without attributes, on which the first
    read of [.x] fails. *)
Theorem init_unsupported_is_silent (ty : string) (y0 : value) :
  __init__ (VObject ty) y0 = Ok (new None None) /\
  __init__ (VObject "list") (VFloat 0) = Ok (new None None) /\
  __init__ VNone (VFloat 0) = Ok (new None None) /\
  __init__ (VInt 1) (VStr "a") = Ok (new None None) /\
  getattr_x (new None None) = Raise (AttributeError "x").
Proof. repeat split. Qed.

(** C6: [!=] raises for every pair of operands and never returns a boolean:
    its body reads [other], a local variable that nothing is bound to, the
    parameter being called [otherother].  The exception is
    [UnboundLocalError], which is a [NameError]. *)
Theorem ne_raises_name_error (self : t) (other : value) :
  __ne__ self other = Raise (UnboundLocalError "other") /\
  is_name_error (UnboundLocalError "other") = true.
Proof. split; reflexivity. Qed.

(** C9: the string conversion of every dual number raises [KeyError]: the
    template's fields are named [self.x] and [self.y] while [format] is given
    positional arguments only.  The display form, whose fields are
    positional, is produced. *)
Theorem str_raises_key_error (a b : float) :
  __str__ (make a b) = Raise (KeyError "self") /\
  __repr__ (make a b) =
    Ok (remove_spaces
          ("<dual:" ++ format_float ".4g" a ++ format_float "+.4g" b ++ "w>")%string).
Proof. split; reflexivity. Qed.

End Properties.

(** * Closed examples *)

(** C3 as stated fails: for [a = (1, 1e308)] both [a ** 2] and [a * a] are
    [(1, inf)], and [==] on them is false because [inf - inf] is NaN; the
    same for [a.pow(2)] against [a ** 2]. *)
Lemma pow_operator_overflow :
  @dual.__pow__ example_host (dual.make 1 1e308) (VInt 2) = Ok (dual.make 1 infinity) /\
  @dual.__mul__ example_host (dual.make 1 1e308) (VDual (dual.make 1 1e308)) = Ok (dual.make 1 infinity) /\
  @dual.pow example_host (dual.make 1 1e308) (VInt 2) = Ok (dual.make 1 infinity) /\
  @equal example_host
    (@dual.__pow__ example_host (dual.make 1 1e308) (VInt 2))
    (@dual.__mul__ example_host (dual.make 1 1e308) (VDual (dual.make 1 1e308))) = Ok false /\
  @equal example_host
    (@dual.pow example_host (dual.make 1 1e308) (VInt 2))
    (@dual.__pow__ example_host (dual.make 1 1e308) (VInt 2)) = Ok false.
Proof. repeat split. Qed.

(** C8 as stated fails: [1e308 - (-1e308)] overflows to [inf], on which
    [==] is false; [((1e9, 1e9) / (3, 7)) * (3, 7)] is off by more than the
    tolerance in its second component; and dividing by [(1e-200, 0)], whose
    real component is not zero, raises [ZeroDivisionError] because its square
    underflows to zero. *)
Lemma sub_div_inverse_fails :
  @sub_neg_swap example_host (dual.make 1e308 0) (dual.make (-1e308) 0) = Ok false /\
  @div_mul_roundtrip example_host (dual.make 1e9 1e9) (dual.make 3 7) = Ok false /\
  @dual.__truediv__ example_host (dual.make 1 2) (VDual (dual.make 1e-200 0))
    = Raise ZeroDivisionError.
Proof. repeat split. Qed.

(** C4 as stated fails: for [a = (-1, 1)] the method [a.pow(2)] returns
    [(1, -2)], while [a **= 2] converts the exponent to a [dual], takes the
    general rule, and raises the [ValueError] of [math.log], leaving [a] as it
    was. *)
Lemma ipow_int_differs :
  heap_neg !! 1%positive = Some (dual.make (-1) 1) /\
  dual.snapshot heap_neg (VInt 2) = Some (VInt 2) /\
  @dual.pow example_host (dual.make (-1) 1) (VInt 2) = Ok (dual.make 1 (-2)) /\
  (@dual.__ipow__ example_host 1%positive (VInt 2) heap_neg).1 = Raise ValueError /\
  (@dual.__ipow__ example_host 1%positive (VInt 2) heap_neg).2 !! 1%positive
    = Some (dual.make (-1) 1).
Proof. repeat split. Qed.

(** When the operand is [self] itself, [*=] reads the component it has just
    overwritten: [(2, 3) *= itself] leaves [(4, 18)], not [(4, 12)]. *)
Lemma imul_aliased :
  @dual.__mul__ example_host (dual.make 2 3) (VDual (dual.make 2 3)) = Ok (dual.make 4 12) /\
  (@dual.__imul__ example_host 1%positive (VDual 1%positive) heap_one).1 = Ok 1%positive /\
  (@dual.__imul__ example_host 1%positive (VDual 1%positive) heap_one).2 !! 1%positive
    = Some (dual.make 4 18).
Proof. repeat split. Qed.

(** The refinement at the test values, on a heap holding [(1, 2)] and
    [(3, 4)]. *)
Lemma compound_assignment_witness :
  (exists h', @dual.__iadd__ example_host 1%positive (VDual 2%positive) heap_two = (Ok 1%positive, h') /\
              h' !! 1%positive = Some (dual.make 4 6)) /\
  (exists h', @dual.__imul__ example_host 1%positive (VDual 2%positive) heap_two = (Ok 1%positive, h') /\
              h' !! 1%positive = Some (dual.make 3 10)) /\
  (exists h', @dual.__ipow__ example_host 1%positive (VDual 2%positive) heap_two = (Ok 1%positive, h') /\
              h' !! 1%positive = Some (dual.make 1 6)).
Proof.
  split; [|split].
  - apply (@compound_assignment_refines example_host heap_two 1%positive (dual.make 1 2)
             (VDual 2%positive) (VDual (dual.make 3 4)) (dual.make 4 6));
      reflexivity.
  - apply (@compound_assignment_refines example_host heap_two 1%positive (dual.make 1 2)
             (VDual 2%positive) (VDual (dual.make 3 4)) (dual.make 3 10));
      [reflexivity | reflexivity | discriminate | reflexivity].
  - apply (@compound_assignment_refines example_host heap_two 1%positive (dual.make 1 2)
             (VDual 2%positive) (VDual (dual.make 3 4)) (dual.make 1 6));
      reflexivity.
Defined.

(** C1 as stated fails: [pow] does not return the pair for every base.
    Under the general rule a base whose real component is zero or negative
    raises the [ValueError] of [math.log]; under the integer rule
    [(1e200, 1).pow(2)] raises the [OverflowError] of the float power. *)
Lemma pow_dispatch_raises :
  @dual.pow example_host (dual.make 0 1) (VFloat 0.5) = Raise ValueError /\
  @dual.pow example_host (dual.make (-2) 1) (VDual (dual.make 1 2)) = Raise ValueError /\
  @dual.pow example_host (dual.make 1e200 1) (VInt 2) = Raise OverflowError.
Proof. repeat split. Qed.

(** The dispatch of [pow] at concrete exponents of each kind, on the example
    host. *)
Lemma pow_dispatch_witness :
  @dual.pow example_host (dual.make 3 4) (VInt 2)
    = @pow_integer_rule example_host 3 4 2 /\
  @dual.pow example_host (dual.make 3 4) (VInt 2) = Ok (dual.make 9 (2 * 3 * 4)) /\
  @dual.pow example_host (dual.make 3 4) (VFloat 1)
    = @pow_general_rule example_host 3 4 1 0 /\
  @dual.pow example_host (dual.make 3 4) (VFloat 1)
    = Ok (dual.make 3.0000000000000004
            (3.0000000000000004 * (1 * 4 / 3 + 0 * ln3))) /\
  @dual.pow example_host (dual.make 3 4) (VInt 0) = Ok (dual.make 1 0) /\
  @dual.pow example_host (dual.make 3 4) (VFloat (-1))
    = Raise (DualException "n must be non-negative") /\
  @equal example_host
    (@dual.pow example_host (dual.make 1 2) (VDual (dual.make 3 4)))
    (Ok (dual.make 1 6)) = Ok true /\
  @equal example_host
    (@dual.pow example_host (dual.make 3 4) (VDual (dual.make 1 2)))
    (Ok (dual.make 3 10.59167373200866)) = Ok true.
Proof.
  destruct (@pow_dispatch example_host 3 4) as (H1 & H2 & H3 & H4 & H5 & H6).
  assert (0 < 2) as Hpos by lia.
  destruct (H1 2 Hpos) as (H1a & H1b & _).
  destruct (H2 (VFloat 1) 1%float 0%float eq_refl eq_refl eq_refl) as (H2a & H2b & _).
  split; [exact H1a|].
  split; [apply H1b; reflexivity|].
  split; [exact H2a|].
  split; [apply (H2b ln3); reflexivity|].
  split; [apply (H3 (VInt 0) 0%float 0%float); reflexivity|].
  split; [apply (H4 (VFloat (-1)) (-1)%float 0%float); reflexivity|].
  split; [apply H5; reflexivity|].
  apply H6.
  - right. left. reflexivity.
  - right. right. reflexivity.
Defined.

(** Equality at differences of exactly [5e-9] and [5e-7], and against an int
    operand. *)
Lemma eq_within_tolerance_witness :
  @dual.__eq__ example_host (dual.make 5e-9 5e-9) (VDual (dual.make 0 0)) = Ok true /\
  @dual.__eq__ example_host (dual.make 5e-7 5e-7) (VDual (dual.make 0 0)) = Ok false /\
  @dual.__eq__ example_host (dual.make 1 0) (VInt 1) = Ok true.
Proof.
  split; [|split].
  - destruct (@eq_within_tolerance example_host 5e-9 5e-9 0 0) as (_ & _ & E & _).
    apply E; reflexivity.
  - destruct (@eq_within_tolerance example_host 5e-7 5e-7 0 0) as (_ & _ & _ & E & _).
    apply E; reflexivity.
  - destruct (@eq_within_tolerance example_host 1 0 1 0) as (_ & _ & _ & _ & _ & _ & E).
    rewrite (E (VInt 1)); reflexivity.
Defined.

(** A negative base under a float exponent. *)
Lemma pow_log_domain_witness :
  ((-1) <=? 0)%float = true /\
  @dual.pow example_host (dual.make (-1) 1) (VFloat 2) = Raise ValueError.
Proof.
  split; [reflexivity|].
  apply (@pow_log_domain_error example_host (-1) 1 (VFloat 2) 2 0); reflexivity.
Defined.

(** The power operator at [(3, 4)] and [(1, 2)]. *)
Lemma pow_operator_witness :
  @dual.__pow__ example_host (dual.make 3 4) (VInt 2)
    = @pow_integer_rule example_host 3 4 2 /\
  @dual.pow example_host (dual.make 3 4) (VInt 2)
    = @dual.__pow__ example_host (dual.make 3 4) (VInt 2) /\
  @equal example_host (@dual.pow example_host (dual.make 3 4) (VInt 2))
                      (@dual.__pow__ example_host (dual.make 3 4) (VInt 2)) = Ok true /\
  @equal example_host (@dual.pow example_host (dual.make 1 2) (VInt 3))
                      (@dual.__pow__ example_host (dual.make 1 2) (VInt 3)) = Ok true.
Proof.
  destruct (@pow_operator example_host 3 4) as (H1 & _ & _ & _ & H5 & H6 & _ & _ & _ & _ & _ & H12).
  split; [apply H1; lia|].
  split; [apply H5; lia|].
  split; [apply (H6 2 9%float 24%float); (lia || reflexivity)|].
  apply H12. lia.
Defined.

(** The inverse laws at the test values. *)
Lemma sub_div_inverse_witness :
  is_finite (1 - 3) = true /\ is_finite (2 - 4) = true /\
  @sub_neg_swap example_host (dual.make 1 2) (dual.make 3 4) = Ok true /\
  @div_mul_roundtrip example_host (dual.make 5 (-7)) (dual.make (-3) 8) = Ok true.
Proof.
  destruct (@sub_div_inverse example_host 1 2 3 4) as (H1 & _ & H3).
  split; [reflexivity|]. split; [reflexivity|].
  split; [apply H1; reflexivity|].
  apply H3; cbn; auto 20.
Defined.

(** * Further properties *)

(** ** More facts of binary64 arithmetic *)

Lemma SFmul_comm (a b : spec_float) : SFmul prec emax a b = SFmul prec emax b a.
Proof.
  destruct a as [sa|sa| |sa ma ea], b as [sb|sb| |sb mb eb]; cbn [SFmul];
    rewrite ?(xorb_comm sa sb); try reflexivity.
  now rewrite (Pos.mul_comm ma mb), (Z.add_comm ea eb).
Qed.

Lemma float_mul_comm (a b : float) : (a * b)%float = (b * a)%float.
Proof. apply Prim2SF_inj. rewrite !mul_spec. apply SFmul_comm. Qed.

Lemma SFsub_add_opp (a b : spec_float) :
  SFsub prec emax a b = SFadd prec emax a (SFopp b).
Proof.
  destruct a as [sa|sa| |sa ma ea], b as [sb|sb| |sb mb eb]; cbn [SFsub SFadd SFopp];
    try reflexivity; destruct sa, sb; reflexivity.
Qed.

Lemma float_sub_add_opp (a b : float) : (a - b)%float = (a + - b)%float.
Proof.
  apply Prim2SF_inj. rewrite sub_spec, add_spec, opp_spec. apply SFsub_add_opp.
Qed.

Lemma float_opp_involutive (a : float) : (- - a)%float = a.
Proof. apply Prim2SF_inj. rewrite !opp_spec. apply SFopp_involutive. Qed.

Lemma SFabs_opp (a : spec_float) : SFabs (SFopp a) = SFabs a.
Proof. destruct a; reflexivity. Qed.

Lemma float_abs_opp (a : float) : abs (- a) = abs a.
Proof. apply Prim2SF_inj. rewrite !abs_spec, opp_spec. apply SFabs_opp. Qed.

Lemma float_abs_idempotent (a : float) : abs (abs a) = abs a.
Proof. apply Prim2SF_inj. rewrite !abs_spec. destruct (Prim2SF a); reflexivity. Qed.

Lemma float_abs_sub_swap (a b : float) : abs (a - b) = abs (b - a).
Proof.
  apply Prim2SF_inj. rewrite !abs_spec, !sub_spec. unfold SF64sub.
  destruct (SFsub_swap (Prim2SF a) (Prim2SF b)) as [E | [Za Zb]].
  - now rewrite E, SFabs_opp.
  - destruct (SFsub prec emax (Prim2SF a) (Prim2SF b)); try discriminate Za.
    destruct (SFsub prec emax (Prim2SF b) (Prim2SF a)); try discriminate Zb.
    reflexivity.
Qed.

Lemma SFsame_within (a b : spec_float) :
  SFsame a b -> SFleb (SFabs (SFsub prec emax a b)) (Prim2SF precision) = true.
Proof.
  intros [[<- Hf] | [Za Zb]].
  - rewrite SFsub_diag_finite by done. reflexivity.
  - destruct a as [sa| | |]; try discriminate Za.
    destruct b as [sb| | |]; try discriminate Zb.
    destruct sa, sb; reflexivity.
Qed.

Lemma same_within (a b : float) :
  SFsame (Prim2SF a) (Prim2SF b) -> (abs (a - b) <=? precision)%float = true.
Proof. intros Hs. rewrite leb_spec, abs_spec, sub_spec. now apply SFsame_within. Qed.

Lemma SFsame_refl (a : spec_float) : SFis_finite a -> SFsame a a.
Proof. left. split; done. Qed.

(** Adding a zero changes at most the sign of a zero. *)
Lemma SFadd_zero_r (a : spec_float) (s : bool) :
  SFis_finite a -> SFsame (SFadd prec emax a (S754_zero s)) a.
Proof.
  destruct a as [sa| | |sa ma ea]; try done; intros _.
  - right. destruct sa, s; split; reflexivity.
  - left. split; done.
Qed.

Lemma SFadd_zero_l (a : spec_float) (s : bool) :
  SFis_finite a -> SFsame (SFadd prec emax (S754_zero s) a) a.
Proof. rewrite SFadd_comm. apply SFadd_zero_r. Qed.

Lemma SFmul_zero_r (a : spec_float) (s : bool) :
  SFis_finite a -> SFis_zero (SFmul prec emax a (S754_zero s)) = true.
Proof. destruct a; try done. Qed.

Lemma SFmul_zero_l (a : spec_float) (s : bool) :
  SFis_finite a -> SFis_zero (SFmul prec emax (S754_zero s) a) = true.
Proof. destruct a; try done. Qed.

Lemma Prim2SF_one : Prim2SF 1%float = S754_finite false 4503599627370496 (-52).
Proof. reflexivity. Qed.

Lemma shr_52 (m : positive) :
  SpecFloat.iter_pos shr_1 52 (shr_record_of_loc (Zpos (4503599627370496 * m)) loc_Exact)
  = Build_shr_record (Zpos m) false false.
Proof. reflexivity. Qed.

(** Multiplying by one is exact. *)
Lemma SFmul_one_r (a : spec_float) :
  valid_binary a = true ->
  SFmul prec emax a (S754_finite false 4503599627370496 (-52)) = a.
Proof.
  destruct a as [sa|sa| |sa m e]; intros Hv; cbn [SFmul].
  - now rewrite xorb_false_r.
  - now rewrite xorb_false_r.
  - reflexivity.
  - rewrite xorb_false_r.
    unfold SpecFloat.valid_binary, bounded, canonical_mantissa in Hv.
    apply andb_prop in Hv as [Hc He].
    apply Z.eqb_eq in Hc.
    pose proof (digits2_pos_spec m) as Hm.
    set (d := Zpos (digits2_pos m)) in *.
    assert (Zpos (digits2_pos (m * 4503599627370496)) = d + 52) as Hd.
    { apply digits2_pos_unique. rewrite Pos2Z.inj_mul.
      change (Zpos 4503599627370496) with (2 ^ 52).
      replace (d + 52 - 1) with (d - 1 + 52) by lia.
      rewrite !Z.pow_add_r by lia. lia. }
    rewrite binary_round_aux_tail. unfold shr_fexp at 1 2 3. cbn [Zdigits2].
    rewrite Hd.
    replace (d + 52 + (e + -52)) with (d + e) by lia. rewrite Hc.
    replace (e - (e + -52)) with 52 by lia.
    cbn [shr fst snd]. rewrite (Pos.mul_comm m), shr_52.
    cbn [shr_m loc_of_shr_record round_nearest_even].
    replace (e + -52 + 52) with e by lia.
    unfold round_tail, shr_fexp. cbn [Zdigits2]. fold d. rewrite Hc, Z.sub_diag.
    cbn [shr shr_record_of_loc shr_m]. now rewrite He.
Qed.

Lemma float_mul_one_r (a : float) : (a * 1)%float = a.
Proof.
  apply Prim2SF_inj. rewrite mul_spec, Prim2SF_one.
  apply SFmul_one_r, Prim2SF_valid.
Qed.

Lemma float_mul_one_l (a : float) : (1 * a)%float = a.
Proof. rewrite float_mul_comm. apply float_mul_one_r. Qed.

Lemma SFopp_binary_round_aux (sx : bool) (m e : Z) (l : location) :
  SFopp (binary_round_aux prec emax sx m e l) = binary_round_aux prec emax (negb sx) m e l.
Proof.
  unfold binary_round_aux.
  destruct (shr_fexp _ _ _ _ _) as [mrs' e'].
  destruct (shr_fexp _ _ _ _ _) as [mrs'' e''].
  destruct (shr_m mrs''); [reflexivity | | reflexivity].
  destruct (_ <=? _); reflexivity.
Qed.

Lemma SFmul_opp_r (a b : spec_float) :
  SFmul prec emax a (SFopp b) = SFopp (SFmul prec emax a b).
Proof.
  destruct a as [sa|sa| |sa ma ea], b as [sb|sb| |sb mb eb]; cbn [SFmul SFopp];
    rewrite ?SFopp_binary_round_aux; try reflexivity;
    destruct sa, sb; reflexivity.
Qed.

Lemma float_mul_opp_r (a b : float) : (a * - b)%float = (- (a * b))%float.
Proof. apply Prim2SF_inj. rewrite mul_spec, !opp_spec, mul_spec. apply SFmul_opp_r. Qed.

(** A finite number and its opposite add up to zero. *)
Lemma SFadd_opp_diag (a : spec_float) :
  SFis_finite a -> SFis_zero (SFadd prec emax (SFopp a) a) = true.
Proof.
  destruct a as [sa| | |sa m e]; try done; intros _.
  - destruct sa; reflexivity.
  - cbn [SFopp SFadd].
    replace (cond_Zopp (negb sa) _ + cond_Zopp sa _) with 0; [reflexivity|].
    destruct sa; cbn [negb cond_Zopp]; lia.
Qed.

(** ** Finite numbers and zeros *)

Lemma SF_is_finite (a : float) : SFis_finite (Prim2SF a) -> is_finite a = true.
Proof.
  unfold SFis_finite, is_finite, is_nan, is_infinity.
  rewrite !FloatAxioms.eqb_spec, abs_spec, Prim2SF_infinity.
  intros Hf. rewrite SFeqb_refl by (intros E; now rewrite E in Hf).
  destruct (Prim2SF a) as [s|s| |s m e]; try done.
Qed.

Lemma eqb_zero_SF (a : float) :
  (a =? 0)%float = SFis_zero (Prim2SF a).
Proof.
  rewrite FloatAxioms.eqb_spec, Prim2SF_zero.
  destruct (Prim2SF a) as [s|s| |s m e]; try reflexivity; destruct s; reflexivity.
Qed.

Lemma SFsame_finite_l (a b : spec_float) : SFsame a b -> SFis_finite a.
Proof. intros [[_ Hf] | [Za _]]; [done|]. destruct a; done. Qed.

Lemma SFsame_finite_r (a b : spec_float) : SFsame a b -> SFis_finite b.
Proof. intros [[<- Hf] | [_ Zb]]; [done|]. destruct b; done. Qed.

Section Algebra.
Context `{Host}.
Import dual.

(** ** The algebra of the reading operations *)

(** X1: addition commutes for every two instances, with or without
    attributes: [a + b] and [b + a] raise the same exception or have the same
    components, as values of the floating-point format, in which every NaN is
    the one value NaN (the sign and the payload of a NaN are not modelled). *)
Theorem add_commutes (a b : t) :
  __add__ a (VDual b) = __add__ b (VDual a).
Proof.
  destruct a as [[x1|] [y1|]], b as [[x2|] [y2|]]; try reflexivity.
  unfold __add__. cbn. now rewrite (float_add_comm x1 x2), (float_add_comm y1 y2).
Qed.

(** X2: multiplication commutes in the same sense: the same exception, or
    the same components as values of the floating-point format, a NaN in one
    being a NaN in the other. *)
Theorem mul_commutes (a b : t) :
  __mul__ a (VDual b) = __mul__ b (VDual a).
Proof.
  destruct a as [[x1|] [y1|]], b as [[x2|] [y2|]]; try reflexivity.
  unfold __mul__. cbn.
  now rewrite (float_mul_comm x1 x2), (float_mul_comm x2 y1), (float_mul_comm y2 x1),
    (float_add_comm (x1 * y2) (y1 * x2)).
Qed.

(** X3: subtraction is the addition of the negation, and negating twice gives
    the operand back. *)
Theorem sub_is_add_neg (x1 y1 x2 y2 : float) :
  __sub__ (make x1 y1) (VDual (make x2 y2)) =
    (n ← __neg__ (make x2 y2); __add__ (make x1 y1) (VDual n)) /\
  (n ← __neg__ (make x1 y1); __neg__ n) = Ok (make x1 y1).
Proof.
  split.
  - unfold __sub__, __neg__, __add__. cbn.
    now rewrite (float_sub_add_opp x1 x2), (float_sub_add_opp y1 y2).
  - unfold __neg__. cbn. now rewrite !float_opp_involutive.
Qed.

(** X4: the unary plus takes absolute values: it undoes a negation and
    applying it twice changes nothing more. *)
Theorem pos_is_absolute (x1 y1 : float) :
  __pos__ (make x1 y1) = Ok (make (abs x1) (abs y1)) /\
  (n ← __neg__ (make x1 y1); __pos__ n) = __pos__ (make x1 y1) /\
  (p ← __pos__ (make x1 y1); __pos__ p) = __pos__ (make x1 y1).
Proof.
  split; [reflexivity|]. split.
  - unfold __neg__, __pos__. cbn. now rewrite !float_abs_opp.
  - unfold __pos__. cbn. now rewrite !float_abs_idempotent.
Qed.

Lemma within_self (u : float) :
  (abs (u - u) <=? precision)%float = is_finite u.
Proof.
  destruct (is_finite u) eqn:Hf.
  - apply same_within, SFsame_refl, is_finite_SF, Hf.
  - rewrite leb_spec, abs_spec, sub_spec. unfold SF64sub.
    destruct (Prim2SF u) as [s|s| |s m e] eqn:E.
    + rewrite SF_is_finite in Hf; [discriminate | now rewrite E].
    + destruct s; reflexivity.
    + reflexivity.
    + rewrite SF_is_finite in Hf; [discriminate | now rewrite E].
Qed.

(** X5: [==] is symmetric, and a dual number equals itself exactly when both
    its components are finite. *)
Theorem eq_symmetric (x1 y1 x2 y2 : float) :
  __eq__ (make x1 y1) (VDual (make x2 y2)) = __eq__ (make x2 y2) (VDual (make x1 y1)) /\
  (__eq__ (make x1 y1) (VDual (make x1 y1)) = Ok true <->
     is_finite x1 = true /\ is_finite y1 = true).
Proof.
  rewrite !eq_make. split.
  - now rewrite (float_abs_sub_swap x1 x2), (float_abs_sub_swap y1 y2).
  - rewrite !within_self. split.
    + intros [= E]. now apply andb_prop in E.
    + intros [-> ->]. reflexivity.
Qed.

(** X6: zero is neutral for addition up to [==], and a number minus itself is
    exactly zero, for finite components. *)
Theorem add_zero_sub_self (x1 y1 : float) :
  is_finite x1 = true -> is_finite y1 = true ->
  equal (__add__ (make x1 y1) (VInt 0)) (Ok (make x1 y1)) = Ok true /\
  __sub__ (make x1 y1) (VDual (make x1 y1)) = Ok (make 0 0).
Proof.
  intros Hx Hy. apply is_finite_SF in Hx, Hy. split.
  - change (__add__ (make x1 y1) (VInt 0)) with (Ok (make (x1 + 0) (y1 + 0))).
    unfold equal. cbn [mbind result_bind]. rewrite eq_make.
    rewrite !same_within; [reflexivity | |];
      rewrite add_spec, Prim2SF_zero; now apply SFadd_zero_r.
  - unfold __sub__. cbn.
    assert (forall u, SFis_finite (Prim2SF u) -> (u - u)%float = 0%float) as Hd.
    { intros u Hu. apply Prim2SF_inj. rewrite sub_spec, Prim2SF_zero.
      now apply SFsub_diag_finite. }
    now rewrite !Hd.
Qed.

(** X7: one is neutral for multiplication up to [==], for finite components;
    the real component comes back to the bit. *)
Theorem mul_by_one_neutral (x1 y1 : float) :
  is_finite x1 = true -> is_finite y1 = true ->
  __mul__ (make x1 y1) (VInt 1) = Ok (make x1 (x1 * 0 + y1)) /\
  equal (__mul__ (make x1 y1) (VInt 1)) (Ok (make x1 y1)) = Ok true.
Proof.
  intros Hx Hy.
  assert (__mul__ (make x1 y1) (VInt 1) = Ok (make x1 (x1 * 0 + y1))) as E.
  { change (__mul__ (make x1 y1) (VInt 1))
      with (Ok (make (x1 * 1) (x1 * 0 + y1 * 1))).
    now rewrite !float_mul_one_r. }
  split; [exact E|]. rewrite E. unfold equal. cbn [mbind result_bind].
  rewrite eq_make, within_self, Hx. cbn [andb].
  apply is_finite_SF in Hx, Hy. f_equal.
  apply same_within. rewrite add_spec, mul_spec, Prim2SF_zero.
  unfold SF64add, SF64mul.
  pose proof (SFmul_zero_r (Prim2SF x1) false Hx) as Hz.
  destruct (SFmul prec emax (Prim2SF x1) (S754_zero false)) as [s| | |]; try discriminate Hz.
  now apply SFadd_zero_l.
Qed.

(** X8: conjugating twice gives the operand back, and the product of a
    number with its conjugate has a zero indeterminate component whenever
    [x * y] is finite. *)
Theorem conj_involutive_product_real (x1 y1 : float) :
  (c ← conj (make x1 y1); conj c) = Ok (make x1 y1) /\
  (is_finite (x1 * y1) = true ->
   exists z : float,
     (c ← conj (make x1 y1); __mul__ (make x1 y1) (VDual c)) = Ok (make (x1 * x1) z) /\
     (z =? 0)%float = true).
Proof.
  split.
  - unfold conj. cbn. now rewrite float_opp_involutive.
  - intros Hf. exists (x1 * - y1 + y1 * x1)%float. split; [reflexivity|].
    rewrite eqb_zero_SF, float_mul_opp_r, (float_mul_comm y1 x1).
    rewrite add_spec, opp_spec. apply SFadd_opp_diag, is_finite_SF, Hf.
Qed.

(** X9: the product of two numbers with zero real components is zero in both
    components, for finite indeterminate components. *)
Theorem indeterminate_squares_to_zero (x1 y1 x2 y2 : float) :
  (x1 =? 0)%float = true -> (x2 =? 0)%float = true ->
  is_finite y1 = true -> is_finite y2 = true ->
  exists u v : float,
    __mul__ (make x1 y1) (VDual (make x2 y2)) = Ok (make u v) /\
    (u =? 0)%float = true /\ (v =? 0)%float = true.
Proof.
  rewrite !eqb_zero_SF. intros Hx1 Hx2 Hy1 Hy2.
  apply is_finite_SF in Hy1, Hy2.
  exists (x1 * x2)%float, (x1 * y2 + y1 * x2)%float. split; [reflexivity|].
  rewrite !eqb_zero_SF, add_spec, !mul_spec.
  destruct (Prim2SF x1) as [s1| | |]; try discriminate Hx1.
  destruct (Prim2SF x2) as [s2| | |]; try discriminate Hx2.
  split; [reflexivity|].
  pose proof (SFmul_zero_l (Prim2SF y2) s1 Hy2) as Ha.
  pose proof (SFmul_zero_r (Prim2SF y1) s2 Hy1) as Hb.
  unfold SF64add, SF64mul.
  destruct (SFmul prec emax (S754_zero s1) (Prim2SF y2)) as [sa| | |]; try discriminate Ha.
  destruct (SFmul prec emax (Prim2SF y1) (S754_zero s2)) as [sb| | |]; try discriminate Hb.
  destruct sa, sb; reflexivity.
Qed.

End Algebra.

(** ** Failures of the reading operations *)

Lemma mul_self_zero (a : float) :
  (a =? 0)%float = true -> (a * a =? 0)%float = true.
Proof.
  rewrite !eqb_zero_SF, mul_spec.
  destruct (Prim2SF a) as [s| | |]; try discriminate. reflexivity.
Qed.

Lemma eqb_zero_leb (a : float) :
  (a =? 0)%float = true -> (a <=? 0)%float = true.
Proof.
  rewrite eqb_zero_SF, leb_spec, Prim2SF_zero.
  destruct (Prim2SF a) as [s| | |]; try discriminate. destruct s; reflexivity.
Qed.

Lemma eqb_zero_not_nan (a : float) :
  (a =? 0)%float = true -> is_nan a = false.
Proof. intros Hz. eapply leb_not_nan, eqb_zero_leb, Hz. Qed.

Lemma float_of_int_finite (n : Z) (f : float) :
  float_of_int n = Ok f -> is_finite f = true.
Proof.
  unfold float_of_int.
  destruct (is_infinity _) eqn:Hinf; [discriminate|]. intros [= <-].
  apply SF_is_finite.
  destruct n as [|p|p]; cbn [binary_normalize] in *.
  - reflexivity.
  - destruct (binary_round_int false p) as [E | (m & e & E & Hv)]; rewrite E in *.
    + discriminate Hinf.
    + now rewrite Prim2SF_SF2Prim.
  - destruct (binary_round_int true p) as [E | (m & e & E & Hv)]; rewrite E in *.
    + discriminate Hinf.
    + now rewrite Prim2SF_SF2Prim.
Qed.

Section Failures.
Context `{Host}.
Import dual.

Lemma truediv_make (x1 y1 x2 y2 : float) :
  __truediv__ (make x1 y1) (VDual (make x2 y2)) =
    (if (x2 * x2 =? 0)%float then Raise ZeroDivisionError
     else Ok (make (x1 / x2) ((y1 * x2 - x1 * y2) / (x2 * x2)))).
Proof.
  unfold __truediv__, float_div. cbn.
  destruct (x2 =? 0)%float eqn:Hz.
  - now rewrite (mul_self_zero _ Hz).
  - cbn. destruct (x2 * x2 =? 0)%float; reflexivity.
Qed.

(** X10: a division fails exactly when the square of the divisor's real
    component is zero, with [ZeroDivisionError]; so does the inverse [~a];
    [arg] fails exactly when the real component is zero. *)
Theorem truediv_zero_division (x1 y1 x2 y2 : float) :
  __truediv__ (make x1 y1) (VDual (make x2 y2)) =
    (if (x2 * x2 =? 0)%float then Raise ZeroDivisionError
     else Ok (make (x1 / x2) ((y1 * x2 - x1 * y2) / (x2 * x2)))) /\
  __invert__ (make x2 y2) =
    (if (x2 * x2 =? 0)%float then Raise ZeroDivisionError
     else Ok (make (1 / x2) ((0 * x2 - 1 * y2) / (x2 * x2)))) /\
  arg (make x1 y1) =
    (if (x1 =? 0)%float then Raise ZeroDivisionError else Ok (y1 / x1)%float).
Proof.
  split; [apply truediv_make|]. split.
  - unfold __invert__.
    change (dual1 (VInt 1)) with (Ok (make 1 0)). cbn [mbind result_bind].
    apply truediv_make.
  - unfold arg, float_div. cbn. destruct (x1 =? 0)%float; reflexivity.
Qed.

(** X11: [log] raises nothing but [ValueError], which it does for every real
    component that is zero or negative; the division [y / x] in it never
    fails, and a result carries [y / x] as its indeterminate component. *)
Theorem log_raises_only_value_error (x1 y1 : float) :
  if (x1 <=? 0)%float then log (make x1 y1) = Raise ValueError
  else log (make x1 y1) = Raise ValueError \/
       exists l : float, log (make x1 y1) = Ok (make l (y1 / x1)).
Proof.
  destruct (x1 <=? 0)%float eqn:Hle.
  - unfold log, math_log. cbn. now rewrite (leb_not_nan _ _ Hle), Hle.
  - assert ((x1 =? 0)%float = false) as Hz.
    { destruct (x1 =? 0)%float eqn:Hz; [|reflexivity].
      now rewrite (eqb_zero_leb _ Hz) in Hle. }
    assert (float_div y1 x1 = Ok (y1 / x1)%float) as Hq
      by (unfold float_div; now rewrite Hz).
    unfold log. cbn [getattr_x getattr_y make x y mbind result_bind].
    destruct (math_log x1) as [l|e] eqn:Hl; cbn [mbind result_bind].
    + right. exists l. cbn [getattr_x getattr_y make x y mbind result_bind]. now rewrite Hq.
    + left. f_equal. unfold math_log in Hl.
      repeat match type of Hl with
             | (if ?b then _ else _) = _ => destruct b
             end; congruence.
Qed.


(** X13: a string that [parse] does not match makes the constructor raise
    [TypeError] whatever its second argument, and with it every binary
    operator, every comparison and [pow], before any attribute of the left
    operand is read. *)
Theorem string_unmatched (a : t) (s : string) (y0 : value) :
  host_parse parseformat s = None ->
  __init__ (VStr s) y0 = Raise TypeError /\
  Forall (fun op => op a (VStr s) = Raise TypeError) binary_ops /\
  Forall (fun op => op a (VStr s) = Raise TypeError) comparisons /\
  pow a (VStr s) = Raise TypeError.
Proof.
  intros Hp.
  assert (forall y0, __init__ (VStr s) y0 = Raise TypeError) as Hi.
  { intros y'. unfold __init__. now rewrite Hp. }
  split; [apply Hi|].
  assert (coerce (VStr s) = Raise TypeError) as Hc by apply Hi.
  assert (dual1 (VStr s) = Raise TypeError) as Hd by apply Hi.
  split; [|split].
  - repeat constructor;
      unfold __add__, __sub__, __mul__, __truediv__; now rewrite Hc.
  - repeat constructor;
      unfold __lt__, __le__, __gt__, __ge__, __eq__; cbn [type_in type_of existsb pytype_eqb orb];
      now rewrite ?Hc, ?Hd.
  - unfold pow. now rewrite Hd.
Qed.

(** X14: a float [f] as right operand of a binary operator, of a comparison
    or of [pow] gives what the dual number [(f, 0)] gives.  An int [n] as
    right operand of a binary operator or of a comparison is converted first:
    either to a finite double [c], the operation then giving what it gives on
    [(c, 0)], or the conversion overflows and the operation raises
    [OverflowError], as does [pow]; no operator sees an infinity or a NaN
    that came from an int.  ([pow] with an int that converts is not part of
    this: it keeps the integer rule.) *)
Theorem number_operand (a : t) (n : Z) (f : float) :
  (Forall (fun op => op a (VFloat f) = op a (VDual (make f 0))) binary_ops /\
   Forall (fun op => op a (VFloat f) = op a (VDual (make f 0))) comparisons /\
   pow a (VFloat f) = pow a (VDual (make f 0))) /\
  ((exists c : float, float_of_int n = Ok c /\ is_finite c = true /\
      Forall (fun op => op a (VInt n) = op a (VDual (make c 0))) binary_ops /\
      Forall (fun op => op a (VInt n) = op a (VDual (make c 0))) comparisons) \/
   (float_of_int n = Raise OverflowError /\
      Forall (fun op => op a (VInt n) = Raise OverflowError) binary_ops /\
      Forall (fun op => op a (VInt n) = Raise OverflowError) comparisons /\
      pow a (VInt n) = Raise OverflowError)).
Proof.
  split.
  - split; [|split]; try reflexivity; repeat constructor.
  - pose proof (dual1_int n) as Hd.
    destruct (float_of_int n) as [c|e] eqn:Hn; cbn [mbind result_bind] in Hd.
    + left. exists c. split; [reflexivity|].
      split; [eapply float_of_int_finite, Hn|].
      assert (coerce (VInt n) = Ok (make c 0)) as Hc by exact Hd.
      split; repeat constructor;
        unfold __add__, __sub__, __mul__, __truediv__, __lt__, __le__, __gt__, __ge__, __eq__;
        cbn [type_in type_of existsb pytype_eqb orb];
        now rewrite ?Hc, ?Hd.
    + right. rewrite (float_of_int_exn _ _ Hn) in *. split; [reflexivity|].
      assert (coerce (VInt n) = Raise OverflowError) as Hc by exact Hd.
      split; [|split]; repeat constructor;
        unfold __add__, __sub__, __mul__, __truediv__, __lt__, __le__, __gt__, __ge__, __eq__, pow;
        cbn [type_in type_of existsb pytype_eqb orb];
        now rewrite ?Hc, ?Hd.
Qed.

End Failures.

(** ** The display form *)

Lemma remove_spaces_no_space (s : string) : no_space (dual.remove_spaces s).
Proof.
  unfold no_space. induction s as [|c s IH]; cbn [dual.remove_spaces].
  - intros [].
  - destruct (Ascii.eqb c " ") eqn:Hc; [exact IH|].
    cbn [list_ascii_of_string In]. intros [E | Hin]; [|now apply IH].
    subst c. discriminate Hc.
Qed.

Section Display.
Context `{Host}.
Import dual.

(** X15: the display form of a dual number with both components is always
    produced, whatever the host's float formatting returns, and holds no
    space; without the components it raises [AttributeError]. *)
Theorem repr_has_no_space (a b : float) :
  (exists s : string, __repr__ (make a b) = Ok s /\ no_space s) /\
  __repr__ (new None None) = Raise (AttributeError "x") /\
  __repr__ (new (Some a) None) = Raise (AttributeError "y").
Proof.
  split; [|split; reflexivity].
  eexists. split; [reflexivity|]. apply remove_spaces_no_space.
Qed.

End Display.

(** ** Compound assignment: what is left untouched, aliasing and failure *)

Lemma others_kept_refl (self : dual.loc) (h : gmap dual.loc dual.t) :
  others_kept self h h.
Proof. intros l o _ Hl. exact Hl. Qed.

Lemma others_kept_trans (self : dual.loc) (h1 h2 h3 : gmap dual.loc dual.t) :
  others_kept self h1 h2 -> others_kept self h2 h3 -> others_kept self h1 h3.
Proof. intros H12 H23 l o Hne Hl. apply H23, H12; assumption. Qed.

Section Frame.
Context `{Host}.
Import dual.

Lemma keeps_ret {A : Type} (self : loc) (a : A) : keeps self (mret a).
Proof. intros h. apply others_kept_refl. Qed.

Lemma keeps_lift {A : Type} (self : loc) (r : result A) : keeps self (lift r).
Proof. intros h. apply others_kept_refl. Qed.

Lemma keeps_bind {A B : Type} (self : loc) (m : M A) (f : A -> M B) :
  keeps self m -> (forall a, keeps self (f a)) -> keeps self (m ≫= f).
Proof.
  intros Hm Hf h. rewrite run_bind. specialize (Hm h).
  destruct (m h) as [[a|e] h']; cbn [snd] in *.
  - eapply others_kept_trans; [exact Hm | apply Hf].
  - exact Hm.
Qed.

Lemma keeps_load (self l : loc) : keeps self (load l).
Proof. intros h. unfold load. destruct (h !! l); apply others_kept_refl. Qed.

Lemma keeps_store (self : loc) (o : t) : keeps self (store self o).
Proof.
  intros h l o' Hne Hl. unfold store. cbn [snd].
  rewrite lookup_insert_ne by congruence. exact Hl.
Qed.

Lemma keeps_alloc (self : loc) (o : t) : keeps self (alloc o).
Proof.
  intros h l o' Hne Hl. unfold alloc. cbn [snd].
  rewrite lookup_insert_ne; [exact Hl|].
  intros E. pose proof (is_fresh (dom h)) as Hf.
  apply not_elem_of_dom in Hf. congruence.
Qed.

Lemma keeps_get_x (self l : loc) : keeps self (get_x l).
Proof. apply keeps_bind; [apply keeps_load | intros o; apply keeps_lift]. Qed.

Lemma keeps_get_y (self l : loc) : keeps self (get_y l).
Proof. apply keeps_bind; [apply keeps_load | intros o; apply keeps_lift]. Qed.

Lemma keeps_set_x (self : loc) (v : float) : keeps self (set_x self v).
Proof. apply keeps_bind; [apply keeps_load | intros o; apply keeps_store]. Qed.

Lemma keeps_set_y (self : loc) (v : float) : keeps self (set_y self v).
Proof. apply keeps_bind; [apply keeps_load | intros o; apply keeps_store]. Qed.

Lemma keeps_coerce_ref (self : loc) (other : ref) : keeps self (coerce_ref other).
Proof.
  destruct other as [n|f|s|c| |l|ty|ty l]; cbn [coerce_ref]; try apply keeps_ret;
    intros h; cbn [snapshot];
    try exact (keeps_bind self (lift (dual1 _)) alloc
                 (keeps_lift self _) (keeps_alloc self) h).
  destruct (h !! l) as [o|]; cbn [fmap option_fmap option_map].
  - exact (keeps_bind self (lift (dual1 _)) alloc
             (keeps_lift self _) (keeps_alloc self) h).
  - apply others_kept_refl.
Qed.

Ltac keeps_step :=
  first [ apply keeps_ret | apply keeps_lift | apply keeps_load
        | apply keeps_get_x | apply keeps_get_y
        | apply keeps_set_x | apply keeps_set_y
        | apply keeps_alloc | apply keeps_coerce_ref
        | apply keeps_bind; [|intros ?] ].

Lemma keeps_iadd (self : loc) (other : ref) : keeps self (__iadd__ self other).
Proof. unfold __iadd__. repeat keeps_step. Qed.

Lemma keeps_isub (self : loc) (other : ref) : keeps self (__isub__ self other).
Proof. unfold __isub__. repeat keeps_step. Qed.

Lemma keeps_imul (self : loc) (other : ref) : keeps self (__imul__ self other).
Proof. unfold __imul__. repeat keeps_step. Qed.

Lemma keeps_itruediv (self : loc) (other : ref) : keeps self (__itruediv__ self other).
Proof. unfold __itruediv__. repeat keeps_step. Qed.

Lemma keeps_ipow (self : loc) (other : ref) : keeps self (__ipow__ self other).
Proof. unfold __ipow__. repeat keeps_step. Qed.

(** X16: whatever the operand and whatever the outcome, a result or an
    exception, a compound assignment changes no object other than [self]:
    every other object of the heap, the operand included when it is another
    object, is afterwards as it was. *)
Theorem compound_assignment_frame (h : gmap loc t) (self : loc) (other : ref) :
  others_kept self h (__iadd__ self other h).2 /\
  others_kept self h (__isub__ self other h).2 /\
  others_kept self h (__imul__ self other h).2 /\
  others_kept self h (__itruediv__ self other h).2 /\
  others_kept self h (__ipow__ self other h).2.
Proof.
  split; [apply keeps_iadd|]. split; [apply keeps_isub|].
  split; [apply keeps_imul|]. split; [apply keeps_itruediv | apply keeps_ipow].
Qed.

Ltac heap_run :=
  unfold get_x, get_y, set_x, set_y;
  repeat first
    [ rewrite run_bind
    | progress unfold load, store, lift, mret, M_ret
    | rewrite lookup_insert_eq
    | rewrite lookup_insert_ne by done
    | match goal with
      | Hl : ?h !! ?l = Some _ |- context [?h !! ?l] => rewrite Hl
      end
    | progress cbn [getattr_x getattr_y make x y coerce_ref fst snd]
    | progress lazy beta iota ].

(** X17: with the object itself as operand, [a *= a] and [a /= a] read the
    indeterminate component they have just overwritten: they leave
    [(x*x, y*x + x*(y*x))] and [(x/x, (y*x - x*(y*x)) / (x*x))], where [a * a]
    and [a / a] give [(x*x, x*y + y*x)] and [(x/x, (y*x - x*y) / (x*x))]. *)
Theorem aliased_operand (h : gmap loc t) (self : loc) (x1 y1 : float) :
  h !! self = Some (make x1 y1) ->
  (__mul__ (make x1 y1) (VDual (make x1 y1)) = Ok (make (x1 * x1) (x1 * y1 + y1 * x1)) /\
   exists h', __imul__ self (VDual self) h = (Ok self, h') /\
              h' !! self = Some (make (x1 * x1) (y1 * x1 + x1 * (y1 * x1)))) /\
  ((x1 * x1 =? 0)%float = false ->
   __truediv__ (make x1 y1) (VDual (make x1 y1))
     = Ok (make (x1 / x1) ((y1 * x1 - x1 * y1) / (x1 * x1))) /\
   exists h', __itruediv__ self (VDual self) h = (Ok self, h') /\
              h' !! self = Some (make (x1 / x1) ((y1 * x1 - x1 * (y1 * x1)) / (x1 * x1)))).
Proof.
  intros Hs. split.
  - split; [reflexivity|].
    unfold __imul__. heap_run. eexists. split; [reflexivity|]. now heap_run.
  - intros Hz. split; [now rewrite truediv_make, Hz|].
    assert ((x1 =? 0)%float = false) as Hx.
    { destruct (x1 =? 0)%float eqn:E; [|reflexivity].
      now rewrite (mul_self_zero _ E) in Hz. }
    unfold __itruediv__, float_div. heap_run. rewrite Hz. heap_run. rewrite Hx. heap_run.
    eexists. split; [reflexivity|]. now heap_run.
Qed.

(** X18: a failing [/=] is not undone.  When the square of the divisor's
    real component is zero, [a / b] raises [ZeroDivisionError] and so does
    [a /= b], but only after it has overwritten the indeterminate component
    of [a] with [y1*x2 - x1*y2]. *)
Theorem itruediv_zero_partial
    (h : gmap loc t) (self other : loc) (x1 y1 x2 y2 : float) :
  self <> other ->
  h !! self = Some (make x1 y1) -> h !! other = Some (make x2 y2) ->
  (x2 * x2 =? 0)%float = true ->
  __truediv__ (make x1 y1) (VDual (make x2 y2)) = Raise ZeroDivisionError /\
  (__itruediv__ self (VDual other) h).1 = Raise ZeroDivisionError /\
  (__itruediv__ self (VDual other) h).2 !! self = Some (make x1 (y1 * x2 - x1 * y2)).
Proof.
  intros Hne Hs Ho Hz. split; [now rewrite truediv_make, Hz|].
  assert (other <> self) as Hne' by congruence.
  unfold __itruediv__, float_div. heap_run. rewrite Hz. heap_run.
  split; [reflexivity|]. now heap_run.
Qed.

End Frame.

(** ** The circular and hyperbolic functions *)

Lemma is_nan_opp (a : float) : is_nan (- a) = is_nan a.
Proof.
  unfold is_nan. rewrite !FloatAxioms.eqb_spec, opp_spec.
  destruct (Prim2SF a) as [s|s| |s m e]; cbn [SFopp];
    rewrite ?SFeqb_refl by done; reflexivity.
Qed.

Lemma is_infinity_opp (a : float) : is_infinity (- a) = is_infinity a.
Proof. unfold is_infinity. now rewrite float_abs_opp. Qed.

Lemma is_finite_opp (a : float) : is_finite (- a) = is_finite a.
Proof. unfold is_finite. now rewrite is_nan_opp, is_infinity_opp. Qed.

Lemma eqb_zero_opp (a : float) : (- a =? 0)%float = (a =? 0)%float.
Proof. rewrite !eqb_zero_SF, opp_spec. destruct (Prim2SF a); reflexivity. Qed.

Lemma float_mul_opp_l (a b : float) : (- a * b)%float = (- (a * b))%float.
Proof. now rewrite (float_mul_comm (- a) b), float_mul_opp_r, (float_mul_comm b a). Qed.

Lemma eqb_zero_finite (a : float) : (a =? 0)%float = true -> is_finite a = true.
Proof.
  rewrite eqb_zero_SF. intros Hz. apply SF_is_finite.
  destruct (Prim2SF a); try discriminate Hz. exact I.
Qed.

Lemma is_finite_not_nan (a : float) : is_finite a = true -> is_nan a = false.
Proof. unfold is_finite. destruct (is_nan a); [discriminate | reflexivity]. Qed.

Lemma is_finite_not_infinity (a : float) : is_finite a = true -> is_infinity a = false.
Proof.
  unfold is_finite. destruct (is_nan a); [discriminate|].
  destruct (is_infinity a); [discriminate | reflexivity].
Qed.

Lemma math_1_odd (f : float -> float) (co : bool) (a : float) :
  f (- a)%float = (- f a)%float ->
  math_1 f co (- a) = (r ← math_1 f co a; Ok (- r)%float).
Proof.
  intros E. unfold math_1. rewrite E, !is_nan_opp, !is_infinity_opp, is_finite_opp.
  destruct (is_nan (f a) && negb (is_nan a)); [reflexivity|].
  destruct (is_infinity (f a) && is_finite a); [destruct co|]; reflexivity.
Qed.

Lemma math_1_even (f : float -> float) (co : bool) (a : float) :
  f (- a)%float = f a -> math_1 f co (- a) = math_1 f co a.
Proof.
  intros E. unfold math_1. now rewrite E, !is_nan_opp, is_finite_opp.
Qed.

(** A function that returns its argument at a zero is passed through. *)
Lemma math_1_zero (f : float -> float) (co : bool) (z r : float) :
  f z = r -> is_finite r = true -> math_1 f co z = Ok r.
Proof.
  intros E Hr. unfold math_1.
  now rewrite E, (is_finite_not_nan _ Hr), (is_finite_not_infinity _ Hr).
Qed.

Lemma example_trig_exact : exact_at_zero example_trig.
Proof. intros z Hz. cbn. rewrite Hz. auto. Qed.

Lemma example_trig_symmetric : symmetric example_trig.
Proof.
  intros a. cbn. rewrite eqb_zero_opp.
  destruct (a =? 0)%float; repeat split; reflexivity.
Qed.

Section Trigonometry.
Context `{Host} {T : HostTrig}.
Import dual.

(** X19: on a C library whose sine and hyperbolic sine are odd and whose
    cosine and hyperbolic cosine are even, so are the functions on dual
    numbers, as floating-point values and to the exception: [(-a).sin()] is
    [-(a.sin())] and [(-a).cos()] is [a.cos()], and the same for [sinh] and
    [cosh]. *)
Theorem sin_odd_cos_even (x1 y1 : float) :
  symmetric T ->
  (n ← __neg__ (make x1 y1); sin n) = (s ← sin (make x1 y1); __neg__ s) /\
  (n ← __neg__ (make x1 y1); cos n) = cos (make x1 y1) /\
  (n ← __neg__ (make x1 y1); sinh n) = (s ← sinh (make x1 y1); __neg__ s) /\
  (n ← __neg__ (make x1 y1); cosh n) = cosh (make x1 y1).
Proof.
  intros Hs. destruct (Hs x1) as (Es & Ec & Esh & Ech).
  change (__neg__ (make x1 y1)) with (Ok (make (- x1) (- y1))).
  cbn [mbind result_bind].
  unfold sin, cos, sinh, cosh, math_sin, math_cos, math_sinh, math_cosh.
  cbn [getattr_x getattr_y make x y mbind result_bind].
  rewrite (math_1_odd _ _ _ Es), (math_1_even _ _ _ Ec),
    (math_1_odd _ _ _ Esh), (math_1_even _ _ _ Ech).
  destruct (math_1 libm_sin false x1) as [s|e], (math_1 libm_cos false x1) as [c|e'],
    (math_1 libm_sinh true x1) as [sh|e2], (math_1 libm_cosh true x1) as [ch|e3];
    cbn [mbind result_bind]; repeat split; try reflexivity;
    unfold __neg__, dual2; cbn;
    rewrite ?float_opp_involutive, ?float_mul_opp_r, ?float_mul_opp_l,
      ?float_opp_involutive; reflexivity.
Qed.

(** X20: on a C library exact at zero, the functions truncate after the
    first order at a multiple of the indeterminate.  For [a = (x1, y1)] with
    [x1] finite, [(w*a).sin()] and [(w*a).sinh()] are [w*a] itself, component
    for component; with [y1] finite as well, [(w*a).cos()] and [(w*a).cosh()]
    are [==] to [1]. *)
Theorem trig_indeterminate_multiple (x1 y1 : float) :
  exact_at_zero T -> is_finite x1 = true ->
  (wa ← (u ← w; __mul__ u (VDual (make x1 y1))); sin wa)
    = (u ← w; __mul__ u (VDual (make x1 y1))) /\
  (wa ← (u ← w; __mul__ u (VDual (make x1 y1))); sinh wa)
    = (u ← w; __mul__ u (VDual (make x1 y1))) /\
  (is_finite y1 = true ->
   equal (wa ← (u ← w; __mul__ u (VDual (make x1 y1))); cos wa) (dual1 (VInt 1)) = Ok true /\
   equal (wa ← (u ← w; __mul__ u (VDual (make x1 y1))); cosh wa) (dual1 (VInt 1)) = Ok true).
Proof.
  intros Hex Hx.
  change w with (Ok (make 0 1)). cbn [mbind result_bind].
  change (__mul__ (make 0 1) (VDual (make x1 y1)))
    with (Ok (make (0 * x1) (0 * y1 + 1 * x1))).
  cbn [mbind result_bind].
  set (z := (0 * x1)%float). set (v := (0 * y1 + 1 * x1)%float).
  assert ((z =? 0)%float = true) as Hz.
  { subst z. rewrite eqb_zero_SF, mul_spec, Prim2SF_zero.
    apply SFmul_zero_l, is_finite_SF, Hx. }
  destruct (Hex z Hz) as (Es & Ec & Esh & Ech).
  pose proof (eqb_zero_finite _ Hz) as Hzf.
  assert (math_sin z = Ok z) as Hsin by (apply math_1_zero; assumption).
  assert (math_cos z = Ok 1%float) as Hcos by (apply math_1_zero; [assumption | reflexivity]).
  assert (math_sinh z = Ok z) as Hsinh by (apply math_1_zero; assumption).
  assert (math_cosh z = Ok 1%float) as Hcosh by (apply math_1_zero; [assumption | reflexivity]).
  unfold sin, sinh, cos, cosh.
  cbn [getattr_x getattr_y make x y mbind result_bind].
  rewrite Hsin, Hcos, Hsinh, Hcosh. cbn [mbind result_bind].
  change (dual2 z (v * 1)) with (Ok (make z (v * 1))).
  rewrite float_mul_one_r.
  split; [reflexivity|]. split; [reflexivity|].
  intros Hy.
  change (dual1 (VInt 1)) with (Ok (make 1 0)).
  change (dual2 1 (- v * z)) with (Ok (make 1 (- v * z))).
  change (dual2 1 (v * z)) with (Ok (make 1 (v * z))).
  unfold equal. cbn [mbind result_bind]. rewrite !eq_make.
  assert (SFis_finite (Prim2SF v)) as Hv.
  { subst v. rewrite float_mul_one_l, add_spec, mul_spec, Prim2SF_zero.
    apply is_finite_SF in Hx, Hy.
    pose proof (SFmul_zero_l (Prim2SF y1) false Hy) as Hm.
    unfold SF64add, SF64mul.
    destruct (SFmul prec emax (S754_zero false) (Prim2SF y1)) as [s| | |];
      try discriminate Hm.
    eapply SFsame_finite_l, SFadd_zero_l, Hx. }
  rewrite eqb_zero_SF in Hz.
  assert (forall u : float, SFis_finite (Prim2SF u) ->
            (abs (u * z - 0) <=? precision)%float = true) as Hw.
  { intros u Hu. apply same_within. right. split; [|reflexivity].
    rewrite mul_spec. destruct (Prim2SF z) as [s| | |]; try discriminate Hz.
    now apply SFmul_zero_r. }
  rewrite !Hw; [split; reflexivity | exact Hv |].
  rewrite opp_spec. destruct (Prim2SF v); done.
Qed.

End Trigonometry.

(** ** Quotients and the exponential *)

Lemma example_host_exp_zero :
  forall z : float, (z =? 0)%float = true -> @libm_exp example_host z = 1%float.
Proof. intros z Hz. cbn. now rewrite Hz. Qed.

Section Quotients.
Context `{Host} {T : HostTrig}.
Import dual.

(** X21: the tangents are the quotients of the sines by the cosines.  An
    exception of [math.sin], and after it one of [math.cos], passes through;
    where they return [s] and [c], [tan] raises [ZeroDivisionError] exactly
    when [c*c] is zero and is [(s/c, ((y*c)*c - s*(-y*s)) / (c*c))] otherwise.
    The same holds of [tanh] on its own two functions, [math.sinh] and
    [math.cosh], with [((y*ch)*ch - sh*(y*sh)) / (ch*ch)] as indeterminate
    component. *)
Theorem tan_quotient (x1 y1 : float) :
  tan (make x1 y1) =
    (s ← math_sin x1; c ← math_cos x1;
     if (c * c =? 0)%float then Raise ZeroDivisionError
     else Ok (make (s / c) ((y1 * c * c - s * (- y1 * s)) / (c * c)))) /\
  tanh (make x1 y1) =
    (sh ← math_sinh x1; ch ← math_cosh x1;
     if (ch * ch =? 0)%float then Raise ZeroDivisionError
     else Ok (make (sh / ch) ((y1 * ch * ch - sh * (y1 * sh)) / (ch * ch)))).
Proof.
  split.
  - unfold tan, sin, cos.
    cbn [getattr_x getattr_y make x y mbind result_bind].
    destruct (math_sin x1) as [s|e]; cbn [mbind result_bind]; [|reflexivity].
    destruct (math_cos x1) as [c|e]; cbn [mbind result_bind]; [|reflexivity].
    change (dual2 s (y1 * c)) with (Ok (make s (y1 * c))).
    change (dual2 c (- y1 * s)) with (Ok (make c (- y1 * s))).
    cbn [mbind result_bind]. apply truediv_make.
  - unfold tanh, sinh, cosh.
    cbn [getattr_x getattr_y make x y mbind result_bind].
    destruct (math_sinh x1) as [sh|e]; cbn [mbind result_bind]; [|reflexivity].
    destruct (math_cosh x1) as [ch|e]; cbn [mbind result_bind]; [|reflexivity].
    change (dual2 sh (y1 * ch)) with (Ok (make sh (y1 * ch))).
    change (dual2 ch (y1 * sh)) with (Ok (make ch (y1 * sh))).
    cbn [mbind result_bind]. apply truediv_make.
Qed.

(** X22: on a C library whose [exp] is exact at zero, the exponential of a
    multiple of the indeterminate truncates after the first order: for
    [a = (x1, y1)] with [x1] finite, [(w*a).exp()] is [(1, 0*y1 + 1*x1)], and
    with [y1] finite as well it is [==] to [w*a + 1]. *)
Theorem exp_indeterminate_multiple (x1 y1 : float) :
  (forall z : float, (z =? 0)%float = true -> libm_exp z = 1%float) ->
  is_finite x1 = true ->
  (wa ← (u ← w; __mul__ u (VDual (make x1 y1))); exp wa)
    = Ok (make 1 (0 * y1 + 1 * x1)) /\
  (is_finite y1 = true ->
   equal (wa ← (u ← w; __mul__ u (VDual (make x1 y1))); exp wa)
         (wa ← (u ← w; __mul__ u (VDual (make x1 y1))); __add__ wa (VInt 1)) = Ok true).
Proof.
  intros Hex Hx.
  change w with (Ok (make 0 1)). cbn [mbind result_bind].
  change (__mul__ (make 0 1) (VDual (make x1 y1)))
    with (Ok (make (0 * x1) (0 * y1 + 1 * x1))).
  cbn [mbind result_bind].
  set (z := (0 * x1)%float). set (v := (0 * y1 + 1 * x1)%float).
  assert ((z =? 0)%float = true) as Hz.
  { subst z. rewrite eqb_zero_SF, mul_spec, Prim2SF_zero.
    apply SFmul_zero_l, is_finite_SF, Hx. }
  assert (exp (make z v) = Ok (make 1 v)) as He.
  { unfold exp, math_exp. cbn [getattr_x getattr_y make x y mbind result_bind].
    rewrite (Hex z Hz). cbn. now rewrite float_mul_one_r. }
  rewrite He. split; [reflexivity|]. intros Hy.
  change (__add__ (make z v) (VInt 1)) with (Ok (make (z + 1) (v + 0))).
  unfold equal. cbn [mbind result_bind]. rewrite eq_make.
  assert (SFis_finite (Prim2SF v)) as Hv.
  { subst v. rewrite float_mul_one_l, add_spec, mul_spec, Prim2SF_zero.
    apply is_finite_SF in Hx, Hy.
    pose proof (SFmul_zero_l (Prim2SF y1) false Hy) as Hm.
    unfold SF64add, SF64mul.
    destruct (SFmul prec emax (S754_zero false) (Prim2SF y1)) as [s| | |];
      try discriminate Hm.
    eapply SFsame_finite_l, SFadd_zero_l, Hx. }
  rewrite (float_abs_sub_swap 1 (z + 1)), (float_abs_sub_swap v (v + 0)).
  rewrite !same_within; [reflexivity | |].
  - rewrite add_spec, Prim2SF_zero. now apply SFadd_zero_r.
  - rewrite add_spec. rewrite eqb_zero_SF in Hz.
    destruct (Prim2SF z) as [sz| | |]; try discriminate Hz.
    now apply SFadd_zero_l.
Qed.

End Quotients.

(** * Closed examples of the further properties *)

(** Zero and self-subtraction at [(1, 2)]. *)
Lemma add_zero_sub_self_witness :
  @equal example_host (@dual.__add__ example_host (dual.make 1 2) (VInt 0))
                      (Ok (dual.make 1 2)) = Ok true /\
  @dual.__sub__ example_host (dual.make 1 2) (VDual (dual.make 1 2)) = Ok (dual.make 0 0).
Proof. apply (@add_zero_sub_self example_host 1 2); reflexivity. Defined.

(** One as right operand at [(3, 4)]. *)
Lemma mul_by_one_neutral_witness :
  @dual.__mul__ example_host (dual.make 3 4) (VInt 1) = Ok (dual.make 3 (3 * 0 + 4)) /\
  @equal example_host (@dual.__mul__ example_host (dual.make 3 4) (VInt 1))
                      (Ok (dual.make 3 4)) = Ok true.
Proof. apply (@mul_by_one_neutral example_host 3 4); reflexivity. Defined.

(** The conjugate at [(3, 4)]. *)
Lemma conj_involutive_product_real_witness :
  (c ← @dual.conj example_host (dual.make 3 4); @dual.conj example_host c)
    = Ok (dual.make 3 4) /\
  is_finite (3 * 4) = true /\
  exists z : float,
    (c ← @dual.conj example_host (dual.make 3 4);
     @dual.__mul__ example_host (dual.make 3 4) (VDual c)) = Ok (dual.make (3 * 3) z) /\
    (z =? 0)%float = true.
Proof.
  destruct (@conj_involutive_product_real example_host 3 4) as [H1 H2].
  split; [exact H1|]. split; [reflexivity|]. apply H2. reflexivity.
Defined.

(** The square of the indeterminate [w = (0, 1)]. *)
Lemma indeterminate_squares_to_zero_witness :
  exists u v : float,
    @dual.__mul__ example_host (dual.make 0 1) (VDual (dual.make 0 1)) = Ok (dual.make u v) /\
    (u =? 0)%float = true /\ (v =? 0)%float = true.
Proof. apply (@indeterminate_squares_to_zero example_host 0 1 0 1); reflexivity. Defined.


(** A string the example host's [parse] does not match. *)
Lemma string_unmatched_witness :
  @dual.__init__ example_host (VStr "abc") (VFloat 0) = Raise TypeError /\
  Forall (fun op => op (dual.make 1 2) (VStr "abc") = Raise TypeError)
         (@binary_ops example_host) /\
  Forall (fun op => op (dual.make 1 2) (VStr "abc") = Raise TypeError)
         (@comparisons example_host) /\
  @dual.pow example_host (dual.make 1 2) (VStr "abc") = Raise TypeError.
Proof.
  apply (@string_unmatched example_host (dual.make 1 2) "abc" (VFloat 0)). reflexivity.
Defined.

(** [a *= a] and [a /= a] on the heap holding [(2, 3)]. *)
Lemma aliased_operand_witness :
  (exists h', @dual.__imul__ example_host 1%positive (VDual 1%positive) heap_one
                = (Ok 1%positive, h') /\
              h' !! 1%positive = Some (dual.make (2 * 2) (3 * 2 + 2 * (3 * 2)))) /\
  (exists h', @dual.__itruediv__ example_host 1%positive (VDual 1%positive) heap_one
                = (Ok 1%positive, h') /\
              h' !! 1%positive
                = Some (dual.make (2 / 2) ((3 * 2 - 2 * (3 * 2)) / (2 * 2)))).
Proof.
  destruct (@aliased_operand example_host heap_one 1%positive 2 3 eq_refl)
    as [[_ Hm] Hd].
  split; [exact Hm|]. apply Hd. reflexivity.
Defined.

(** [(1, 2) /= (0, 1)]: the exception, and what is left in [self]. *)
Lemma itruediv_zero_partial_witness :
  @dual.__truediv__ example_host (dual.make 1 2) (VDual (dual.make 0 1))
    = Raise ZeroDivisionError /\
  (@dual.__itruediv__ example_host 1%positive (VDual 2%positive) heap_zero).1
    = Raise ZeroDivisionError /\
  (@dual.__itruediv__ example_host 1%positive (VDual 2%positive) heap_zero).2 !! 1%positive
    = Some (dual.make 1 (2 * 0 - 1 * 1)).
Proof.
  apply (@itruediv_zero_partial example_host heap_zero 1%positive 2%positive 1 2 0 1);
    [discriminate | reflexivity | reflexivity | reflexivity].
Defined.

(** The symmetries at [(0, 1)], on the example library. *)
Lemma sin_odd_cos_even_witness :
  (n ← @dual.__neg__ example_host (dual.make 0 1); @dual.sin example_host example_trig n)
    = (s ← @dual.sin example_host example_trig (dual.make 0 1); @dual.__neg__ example_host s) /\
  (n ← @dual.__neg__ example_host (dual.make 0 1); @dual.cos example_host example_trig n)
    = @dual.cos example_host example_trig (dual.make 0 1) /\
  (n ← @dual.__neg__ example_host (dual.make 0 1); @dual.sinh example_host example_trig n)
    = (s ← @dual.sinh example_host example_trig (dual.make 0 1); @dual.__neg__ example_host s) /\
  (n ← @dual.__neg__ example_host (dual.make 0 1); @dual.cosh example_host example_trig n)
    = @dual.cosh example_host example_trig (dual.make 0 1).
Proof.
  apply (@sin_odd_cos_even example_host example_trig 0 1 example_trig_symmetric).
Defined.

(** The module's own test values: [(w*x).sin() == w*x] and [(w*x).cos() == 1]
    for [x = (1, 2)]. *)
Lemma trig_indeterminate_multiple_witness :
  (wa ← (u ← @dual.w example_host; @dual.__mul__ example_host u (VDual (dual.make 1 2)));
   @dual.sin example_host example_trig wa)
    = (u ← @dual.w example_host; @dual.__mul__ example_host u (VDual (dual.make 1 2))) /\
  @equal example_host
    (wa ← (u ← @dual.w example_host; @dual.__mul__ example_host u (VDual (dual.make 1 2)));
     @dual.cos example_host example_trig wa)
    (@dual.dual1 example_host (VInt 1)) = Ok true.
Proof.
  destruct (@trig_indeterminate_multiple example_host example_trig 1 2 example_trig_exact eq_refl)
    as (Hs & _ & Hc).
  split; [exact Hs|]. apply Hc. reflexivity.
Defined.

(** The tangents at [(0, 1)], on the example library. *)
Lemma tan_quotient_witness :
  @dual.tan example_host example_trig (dual.make 0 1)
    = Ok (dual.make (0 / 1) ((1 * 1 * 1 - 0 * (- 1 * 0)) / (1 * 1))) /\
  @dual.tanh example_host example_trig (dual.make 0 1)
    = Ok (dual.make (0 / 1) ((1 * 1 * 1 - 0 * (1 * 0)) / (1 * 1))).
Proof.
  destruct (@tan_quotient example_host example_trig 0 1) as [Ht Hh].
  split; [rewrite Ht | rewrite Hh]; reflexivity.
Defined.

(** [(w*x).exp() == w*x + 1] for [x = (1, 2)]. *)
Lemma exp_indeterminate_multiple_witness :
  (wa ← (u ← @dual.w example_host; @dual.__mul__ example_host u (VDual (dual.make 1 2)));
   @dual.exp example_host wa) = Ok (dual.make 1 (0 * 2 + 1 * 1)) /\
  @equal example_host
    (wa ← (u ← @dual.w example_host; @dual.__mul__ example_host u (VDual (dual.make 1 2)));
     @dual.exp example_host wa)
    (wa ← (u ← @dual.w example_host; @dual.__mul__ example_host u (VDual (dual.make 1 2)));
     @dual.__add__ example_host wa (VInt 1)) = Ok true.
Proof.
  destruct (@exp_indeterminate_multiple example_host 1 2 example_host_exp_zero eq_refl)
    as [He Hq].
  split; [exact He|]. apply Hq. reflexivity.
Defined.
